(** * steps_chart: extraction, validation, grouping and derived metrics

    A shallow embedding of [scripts/steps_chart.py].  The script reads a
    log, collects seven labelled numeric fields, checks their consistency,
    groups consecutive records by step count, reduces every group to one
    row, appends derived columns and writes the table as CSV.

    Python floats and numpy's float64 are IEEE binary64: they are Rocq's
    primitive floats.  Integer columns are numpy int64 arrays: they are
    [Z] with the 64-bit wrap-around written where the script multiplies.
    That is the array type numpy chooses when every integer of the log
    fits in int64 ([int64_captures]); the properties that depend on the
    product or on the conversion of a cell are stated for such logs.
    The table is a record whose fields follow the key order of the
    script's ordered dictionary, with the derived columns as an ordered
    dictionary of their own; exceptions are a result type, and the I/O is
    a state and exception monad over a file store that also records the
    calls of [open]. *)

From Stdlib Require Import ZArith List Bool Lia Floats String Ascii DecimalString.
From stdpp Require Import gmap strings.
Import ListNotations.

Local Open Scope string_scope.
Local Open Scope list_scope.
Local Open Scope Z_scope.

(** ** Machine numbers *)

(** A numpy int64 result: the value modulo 2^64, read as signed. *)
Definition int64_wrap (z : Z) : Z := (z + 2 ^ 63) mod 2 ^ 64 - 2 ^ 63.

(** [a * b] on int64 arrays. *)
Definition int64_mul (a b : Z) : Z := int64_wrap (a * b).

(** An integer converted to float64, rounded to nearest even. *)
Definition float_of_int (z : Z) : float :=
  SF2Prim (binary_normalize prec emax z 0 false).

(** Truth value of a float: [x != 0.0] (so both zeros are false and nan
    is true). *)
Definition float_bool (x : float) : bool := negb (x =? 0)%float.

(** [x is not None]. *)
Definition is_not_None {A} (o : option A) : bool :=
  match o with
  | None => false
  | Some _ => true
  end.

(** ** numpy reductions

    [numpy.mean] and [numpy.std] as numpy documents them: the mean is the
    sum over the count, the variance is the mean of the squared deviations
    with divisor [N - ddof], the standard deviation is its square root.
    The sum of a float64 array is numpy's pairwise summation, added to
    the identity 0 of the reduction. *)

(** The eight accumulators combined:
    ((r0 + r1) + (r2 + r3)) + ((r4 + r5) + (r6 + r7)). *)
Definition add8 (r : list float) : float :=
  match r with
  | [r0; r1; r2; r3; r4; r5; r6; r7] =>
      ((r0 + r1) + (r2 + r3)) + ((r4 + r5) + (r6 + r7))
  | _ => 0
  end%float.

(** The unrolled loop: while eight elements are left, element [i + j] is
    added to accumulator [j]; the accumulators and the fewer than eight
    elements left over are returned. *)
Fixpoint unrolled (fuel : nat) (r a : list float) : list float * list float :=
  match fuel with
  | O => (r, a)
  | S fuel' =>
      if (8 <=? length a)%nat
      then unrolled fuel' (zip_with PrimFloat.add r (firstn 8 a)) (skipn 8 a)
      else (r, a)
  end.

(** [pairwise_sum]: fewer than 8 elements are added left to right from 0;
    up to 128 elements go through the eight accumulators, and the rest is
    added left to right; more are split near the middle, at a multiple of
    8, and the sums of the two parts are added.  The fuel bounds the
    splitting; the length of the list is enough. *)
Fixpoint pairwise_sum (fuel : nat) (a : list float) : float :=
  let n := length a in
  if (n <? 8)%nat then fold_left PrimFloat.add a 0%float
  else if (n <=? 128)%nat then
    let '(r, rest) := unrolled n (firstn 8 a) (skipn 8 a) in
    fold_left PrimFloat.add rest (add8 r)
  else
    match fuel with
    | O => 0%float
    | S fuel' =>
        let n2 := (n / 2 - (n / 2) mod 8)%nat in
        (pairwise_sum fuel' (firstn n2 a) + pairwise_sum fuel' (skipn n2 a))%float
    end.

(** [numpy.add.reduce] of a float64 array. *)
Definition numpy_sum (xs : list float) : float :=
  (0 + pairwise_sum (length xs) xs)%float.

Definition numpy_mean (xs : list float) : float :=
  (numpy_sum xs / float_of_int (Z.of_nat (length xs)))%float.

Definition numpy_var (xs : list float) (ddof : Z) : float :=
  let arrmean := numpy_mean xs in
  let x := map (fun a => (a - arrmean) * (a - arrmean))%float xs in
  (numpy_sum x / float_of_int (Z.max (Z.of_nat (length xs) - ddof) 0))%float.

Definition numpy_std (xs : list float) (ddof : Z) : float :=
  PrimFloat.sqrt (numpy_var xs ddof).

(** [numpy.resize a (n,)]: the first [n] elements of [a] repeated as often
    as needed; zeros when [a] is empty. *)
Definition numpy_resize (a : list Z) (n : nat) : list Z :=
  match a with
  | [] => repeat 0 n
  | _ => firstn n (concat (repeat a n))
  end.

(** ** Exceptions *)

Inductive exn :=
| Exception (msg : string)        (* raise Exception(...) *)
| AssertionError (line : nat)     (* a failed assert, by source line *)
| ValueError (line : nat)         (* a failed unpacking or conversion *)
| FileNotFoundError (path : string)
| OverflowError.                  (* int too large to convert to float *)

Inductive result (A : Type) :=
| Ok (a : A)
| Raise (e : exn).
Arguments Ok {A} a.
Arguments Raise {A} e.

Definition rbind {A B} (r : result A) (k : A -> result B) : result B :=
  match r with
  | Ok a => k a
  | Raise e => Raise e
  end.

Definition assert (line : nat) (b : bool) : result unit :=
  if b then Ok tt else Raise (AssertionError line).

(** A Python int as an operand of float arithmetic: the nearest float, or
    [OverflowError] when that is beyond the floats. *)
Definition python_float (z : Z) : result float :=
  let x := float_of_int z in
  if is_infinity x then Raise OverflowError else Ok x.

Fixpoint rmap {A B} (f : A -> result B) (l : list A) : result (list B) :=
  match l with
  | [] => Ok []
  | a :: l' =>
      rbind (f a) (fun b => rbind (rmap f l') (fun bs => Ok (b :: bs)))
  end.

#[global] Instance result_ret : MRet result := @Ok.
#[global] Instance result_bind : MBind result := fun A B k r => rbind r k.

(** ** [same] and [group_by] *)

Section Same.
Context {A : Type} (eqb : A -> A -> bool).

(** [all(value == values[0] for value in values)]: [values[0]] is only
    evaluated inside the loop, so the empty sequence is accepted. *)
Definition same (values : list A) : bool :=
  match values with
  | [] => true
  | v0 :: _ => forallb (fun value => eqb value v0) values
  end.
End Same.

Section GroupBy.
Context {K V : Type} (eqb : K -> K -> bool).

(** The loop state: [last_key] and [last_group] are [None] together
    (before the first pair) and set together afterwards, so they are one
    optional pair; [out] holds what has been yielded so far. *)
Definition group_state : Type := option (K * list V) * list (K * list V).

(** [key != last_key]; every key differs from [None]. *)
Definition key_differs (key : K) (last : option (K * list V)) : bool :=
  match last with
  | None => true
  | Some (last_key, _) => negb (eqb key last_key)
  end.

Definition group_step (st : group_state) (kv : K * V) : group_state :=
  let '(last, out) := st in
  let '(key, value) := kv in
  if key_differs key last then
    match last with
    | Some (last_key, last_group) =>
        (Some (key, [value]), out ++ [(last_key, last_group)])
    | None => (Some (key, [value]), out)
    end
  else
    match last with
    | Some (_, last_group) => (Some (key, last_group ++ [value]), out)
    | None => (Some (key, [value]), out)
    end.

Definition group_finish (st : group_state) : list (K * list V) :=
  match fst st with
  | Some (last_key, last_group) => snd st ++ [(last_key, last_group)]
  | None => snd st
  end.

Definition group_by (keys : list K) (values : list V) : list (K * list V) :=
  group_finish (fold_left group_step (combine keys values) (None, [])).
End GroupBy.

(** ** The log and its seven fields *)

(** A log as the patterns of [_columns] read it, line by line: a line that
    matches a pattern is recorded with the pattern's label and its captured
    number, converted by [float] or [int] as the pattern's entry says; a
    line that matches none is [Other].  The integers are those numpy stores
    as int64; a capture that [float] or [int] rejects is not a line of
    this model. *)
Inductive line :=
| Elapsed_Time (seconds : float)
| Iterations (n : Z)
| Time_Steps (n : Z)
| Total_Tasks (n : Z)
| Total_FLOPs (n : Z)
| Total_Bytes (n : Z)
| Max_Width (n : Z)
| Other (s : string).

(** [[t(m.group(1)) for m in re.finditer(p, text)]]: the pattern [p] with
    its conversion is a partial function on lines. *)
Definition finditer {A} (p : line -> option A) (text : list line) : list A :=
  omap p text.

(** The table after the parse (line 66), one array per entry of [_columns],
    in that order. *)
Record columns := Columns {
  col_elapsed : list float;
  col_iterations : list Z;
  col_steps : list Z;
  col_tasks : list Z;
  col_flops : list Z;
  col_bytes : list Z;
  col_width : list Z
}.

Definition parse_columns (text : list line) : columns :=
  {| col_elapsed := finditer (fun l => match l with Elapsed_Time x => Some x | _ => None end) text;
     col_iterations := finditer (fun l => match l with Iterations n => Some n | _ => None end) text;
     col_steps := finditer (fun l => match l with Time_Steps n => Some n | _ => None end) text;
     col_tasks := finditer (fun l => match l with Total_Tasks n => Some n | _ => None end) text;
     col_flops := finditer (fun l => match l with Total_FLOPs n => Some n | _ => None end) text;
     col_bytes := finditer (fun l => match l with Total_Bytes n => Some n | _ => None end) text;
     col_width := finditer (fun l => match l with Max_Width n => Some n | _ => None end) text |}.

(** [[len(column) for column in table.values()]]. *)
Definition column_lengths (c : columns) : list nat :=
  [length (col_elapsed c); length (col_iterations c); length (col_steps c);
   length (col_tasks c); length (col_flops c); length (col_bytes c);
   length (col_width c)].

(** [table['tasks'] == table['steps'] * table['width']], elementwise on
    int64 arrays (of one length once line 71 has passed). *)
Definition tasks_eq_steps_width (c : columns) : list bool :=
  zip_with Z.eqb (col_tasks c) (zip_with int64_mul (col_steps c) (col_width c)).

(** Lines 71 to 74. *)
Definition check_consistency (c : columns) : result unit :=
  assert 71 (same Nat.eqb (column_lengths c));;
  assert 72 (same Z.eqb (col_iterations c));;
  assert 73 (same Z.eqb (col_width c));;
  assert 74 (forallb id (tasks_eq_steps_width c)).

(** ** Grouping and statistics *)

(** One record as line 80 zips it: elapsed, tasks, flops, bytes. *)
Record record := Record_ {
  rec_elapsed : float;
  rec_tasks : Z;
  rec_flops : Z;
  rec_bytes : Z
}.

Fixpoint zip_records (elapsed : list float) (tasks flops bytes : list Z) : list record :=
  match elapsed, tasks, flops, bytes with
  | e :: elapsed', t :: tasks', f :: flops', b :: bytes' =>
      Record_ e t f b :: zip_records elapsed' tasks' flops' bytes'
  | _, _, _, _ => []
  end.

(** The ten values line 79 computes for a group. *)
Record row := Row {
  row_k : Z;
  row_mean : float;
  row_std : float;
  row_len : Z;
  row_tasks : Z;
  row_flops : Z;
  row_bytes : Z;
  row_same_tasks : bool;
  row_same_flops : bool;
  row_same_bytes : bool
}.

(** Line 81 transposes [vs] and unpacks four tuples: an empty [vs] gives
    nothing to unpack; otherwise [tasks[0]] is the first record's. *)
Definition group_row (g : Z * list record) : result row :=
  let '(k, vs) := g in
  match vs with
  | [] => Raise (ValueError 81)
  | v0 :: _ =>
      let elapsed := map rec_elapsed vs in
      let tasks := map rec_tasks vs in
      let flops := map rec_flops vs in
      let bytes := map rec_bytes vs in
      Ok (Row k (numpy_mean elapsed) (numpy_std elapsed 0)
              (Z.of_nat (length elapsed))
              (rec_tasks v0) (rec_flops v0) (rec_bytes v0)
              (same Z.eqb tasks) (same Z.eqb flops) (same Z.eqb bytes))
  end.

(** The table from line 77 on, in the ordered dictionary's key order:
    the seven parsed keys keep their places, [std] and [reps] follow, and
    the derived columns come last. *)
Record table := Table {
  elapsed : list float;
  iterations : list Z;
  steps : list Z;
  tasks : list Z;
  flops : list Z;
  bytes : list Z;
  width : list Z;
  std : list float;
  reps : list Z;
  derived : list (string * list float)
}.

(** The groups of line 80. *)
Definition groups (c : columns) : list (Z * list record) :=
  group_by Z.eqb (col_steps c)
    (zip_records (col_elapsed c) (col_tasks c) (col_flops c) (col_bytes c)).

(** Lines 77 to 88 when the unpacking succeeds: the rows transposed into
    the table's arrays, with [iterations] and [width] resized to the
    number of rows. *)
Definition table_of_rows (c : columns) (rows : list row) : table :=
  {| elapsed := map row_mean rows;
     iterations := numpy_resize (col_iterations c) (length rows);
     steps := map row_k rows;
     tasks := map row_tasks rows;
     flops := map row_flops rows;
     bytes := map row_bytes rows;
     width := numpy_resize (col_width c) (length rows);
     std := map row_std rows;
     reps := map row_len rows;
     derived := [] |}.

(** Lines 77 to 88: the rows are transposed into ten arrays (no row leaves
    nothing to unpack), and the three homogeneity arrays are asserted. *)
Definition group_statistics (c : columns) : result table :=
  rows ← rmap group_row (groups c);
  match rows with
  | [] => Raise (ValueError 77)
  | _ =>
      assert 83 (forallb id (map row_same_tasks rows));;
      assert 84 (forallb id (map row_same_flops rows));;
      assert 85 (forallb id (map row_same_bytes rows));;
      Ok (table_of_rows c rows)
  end.

(** ** Derived columns *)

(** The value of an optional float when [if] takes it as true. *)
Definition truthy_value (o : option float) : option float :=
  match o with
  | Some x => if float_bool x then Some x else None
  | None => None
  end.

Definition time_per_task (nodes cores : Z) (t : table) : list float :=
  zip_with (fun e k =>
              e / float_of_int k * float_of_int nodes * float_of_int cores * 1000)%float
           (elapsed t) (tasks t).

Definition efficiency_flops (nodes : Z) (peak_flops : float) (t : table) : list float :=
  zip_with (fun f e => (float_of_int f / e / float_of_int nodes) / peak_flops)%float
           (flops t) (elapsed t).

Definition efficiency_bytes (nodes : Z) (peak_bytes : float) (t : table) : list float :=
  zip_with (fun b e => (float_of_int b / e / float_of_int nodes) / peak_bytes)%float
           (bytes t) (elapsed t).

(** Lines 54 to 61: the ordered dictionary [compute]. *)
Definition compute (nodes cores : Z) (peak_flops peak_bytes : option float)
  : list (string * (table -> list float)) :=
  let compute := [("time_per_task", time_per_task nodes cores)] in
  match truthy_value peak_flops with
  | Some pf => compute ++ [("efficiency", efficiency_flops nodes pf)]
  | None =>
      match truthy_value peak_bytes with
      | Some pb => compute ++ [("efficiency", efficiency_bytes nodes pb)]
      | None => compute
      end
  end.

(** [d[k] = v] on an ordered dictionary: a present key keeps its place. *)
Fixpoint dict_set {A} (k : string) (v : A) (d : list (string * A)) : list (string * A) :=
  match d with
  | [] => [(k, v)]
  | (k', v') :: d' =>
      if String.eqb k' k then (k, v) :: d' else (k', v') :: dict_set k v d'
  end.

Definition set_derived (k : string) (v : list float) (t : table) : table :=
  {| elapsed := elapsed t; iterations := iterations t; steps := steps t;
     tasks := tasks t; flops := flops t; bytes := bytes t; width := width t;
     std := std t; reps := reps t; derived := dict_set k v (derived t) |}.

(** Lines 91 and 92. *)
Definition compute_derived (compute : list (string * (table -> list float)))
  (t : table) : table :=
  fold_left (fun t kf => set_derived (fst kf) (snd kf t) t) compute t.

(** Lines 66 to 92 on the text of one file.  The first formula of
    [compute] multiplies a float64 array by [nodes] and by [cores], which
    converts them (line 55, called at line 92): an int beyond the floats
    raises [OverflowError] there. *)
Definition analysis (nodes cores : Z) (peak_flops peak_bytes : option float)
  (text : list line) : result table :=
  let c := parse_columns text in
  check_consistency c;;
  t ← group_statistics c;
  python_float nodes;;
  python_float cores;;
  Ok (compute_derived (compute nodes cores peak_flops peak_bytes) t).

(** ** Output *)

Inductive column :=
| IntCol (l : list Z)
| FloatCol (l : list float).

(** [table.items()]. *)
Definition items (t : table) : list (string * column) :=
  [("elapsed", FloatCol (elapsed t));
   ("iterations", IntCol (iterations t));
   ("steps", IntCol (steps t));
   ("tasks", IntCol (tasks t));
   ("flops", IntCol (flops t));
   ("bytes", IntCol (bytes t));
   ("width", IntCol (width t));
   ("std", FloatCol (std t));
   ("reps", IntCol (reps t))]
  ++ map (fun kv => (fst kv, FloatCol (snd kv))) (derived t).

(** [str] of an integer. *)
Definition str (z : Z) : string := NilZero.string_of_int (Z.to_int z).

(** [zip] of the unpacked columns: row [i] takes the [i]-th cell of every
    column, up to the shortest column. *)
Definition zip_star {A} (d : A) (cols : list (list A)) : list (list A) :=
  match cols with
  | [] => []
  | c :: cols' =>
      let n := fold_right Nat.min (length c) (map (@length A) cols') in
      map (fun i => map (fun col => nth i col d) cols) (seq 0 n)
  end.

(** [str.rfind]: the last index of a character, or -1. *)
Fixpoint rfind_from (c : ascii) (s : string) (i last : Z) : Z :=
  match s with
  | EmptyString => last
  | String a s' => rfind_from c s' (i + 1) (if Ascii.eqb a c then i else last)
  end.

Definition rfind (c : ascii) (s : string) : Z := rfind_from c s 0 (-1).

(** [os.path.splitext(p)[0]]: [p] up to the last dot of its last
    component, unless that component has only dots before it. *)
Definition splitext_root (p : string) : string :=
  let sepIndex := rfind "/" p in
  let dotIndex := rfind "." p in
  if (sepIndex <? dotIndex)
     && existsb (fun j => match String.get j p with
                          | Some a => negb (Ascii.eqb a ".")
                          | None => false
                          end)
                (seq (Z.to_nat (sepIndex + 1)) (Z.to_nat (dotIndex - sepIndex - 1)))
  then substring 0 (Z.to_nat dotIndex) p
  else p.

(** What a path holds: a log whose matched captures all convert; a text
    in which a pattern matches a line whose capture the field's conversion
    rejects, as [float] rejects 1.2.3; or the rows of a CSV file this
    script wrote (the header first). *)
Inductive content :=
| Log (text : list line)
| Rejected (capture : string)
| Csv (rows : list (list string)).

Inductive io_call :=
| open_r (path : string)
| open_w (path : string).

(** The files, and the [open] calls made so far. *)
Record world := World {
  files : gmap string content;
  calls : list io_call
}.

Definition io (A : Type) : Type := world -> result A * world.

#[global] Instance io_ret : MRet io := fun A a w => (Ok a, w).
#[global] Instance io_bind : MBind io := fun A B k m w =>
  match m w with
  | (Ok a, w') => k a w'
  | (Raise e, w') => (Raise e, w')
  end.

Definition lift {A} (r : result A) : io A := fun w => (r, w).

(** [open(filename)] and [f.read()]. *)
Definition read (filename : string) : io content := fun w =>
  let w' := World (files w) (calls w ++ [open_r filename]) in
  match files w !! filename with
  | Some c => (Ok c, w')
  | None => (Raise (FileNotFoundError filename), w')
  end.

(** The conversions of line 67: a rejected capture raises [ValueError].
    None of the seven patterns matches a line of a CSV file written by
    this script. *)
Definition captures (c : content) : result (list line) :=
  match c with
  | Log text => Ok text
  | Rejected _ => Raise (ValueError 67)
  | Csv _ => Ok []
  end.

(** [open(out_filename, 'w')] and the rows written to it. *)
Definition write (out_filename : string) (rows : list (list string)) : io unit :=
  fun w => (Ok tt, World (<[out_filename := Csv rows]> (files w))
                         (calls w ++ [open_w out_filename])).

Section Driver.
(** ['%e' % x], the interpreter's rendering of a float. *)
Variable format_e : float -> string.

(** Lines 95 to 97 and the writer's [str]: a column that holds a float
    becomes the list of its ['%e'] renderings; an integer is written by
    [str]. *)
Definition render (c : column) : list string :=
  match c with
  | IntCol l => map str l
  | FloatCol l => map format_e l
  end.

(** Lines 101 to 103: the header, then one row per table row. *)
Definition csv_rows (t : table) : list (list string) :=
  map fst (items t) :: zip_star "" (map (fun kv => render (snd kv)) (items t)).

Definition analyze (filename : string) (nodes cores : Z) (threshold : float)
  (peak_flops peak_bytes : option float) : io unit :=
  c ← read filename;
  text ← lift (captures c);
  table ← lift (analysis nodes cores peak_flops peak_bytes text);
  let out_filename := (splitext_root filename ++ ".csv")%string in
  write out_filename (csv_rows table).

(** [for filename in inputs: analyze(...)]. *)
Fixpoint analyze_all (inputs : list string) (nodes cores : Z) (threshold : float)
  (peak_flops peak_bytes : option float) : io unit :=
  match inputs with
  | [] => mret tt
  | filename :: inputs' =>
      analyze filename nodes cores threshold peak_flops peak_bytes;;
      analyze_all inputs' nodes cores threshold peak_flops peak_bytes
  end.

Definition driver (inputs : list string) (summary : option string)
  (nodes cores : Z) (threshold : float) (peak_flops peak_bytes : option float)
  : io unit :=
  if is_not_None peak_flops && is_not_None peak_bytes then
    lift (Raise (Exception "Can specify at most one --peak-* flag"))
  else
    analyze_all inputs nodes cores threshold peak_flops peak_bytes.
End Driver.

(** ** Definitions used to state the properties *)

(** [d[k]] on an ordered dictionary, when the key is present. *)
Fixpoint dict_get {A} (k : string) (d : list (string * A)) : option A :=
  match d with
  | [] => None
  | (k', v) :: d' => if String.eqb k' k then Some v else dict_get k d'
  end.

(** The loop of [group_by] from its second iteration on, as a recursion:
    [key] and [group] are the open group, and a pair whose key differs
    closes it. *)
Fixpoint collect {V} (key : Z) (group : list V) (l : list (Z * V)) : list (Z * list V) :=
  match l with
  | [] => [(key, group)]
  | (k, v) :: l' =>
      if Z.eqb k key then collect key (group ++ [v]) l'
      else (key, group) :: collect k [v] l'
  end.

(** The pairs of a list of groups, each value with its group's key. *)
Definition ungroup {V} (gs : list (Z * list V)) : list (Z * V) :=
  flat_map (fun g => map (pair (fst g)) (snd g)) gs.

(** No two neighbours are equal. *)
Fixpoint adjacent_differ (ks : list Z) : Prop :=
  match ks with
  | k1 :: (k2 :: _) as ks' => k1 <> k2 /\ adjacent_differ ks'
  | _ => True
  end.

(** The number of positions whose key differs from the key before it (the
    first position counts). *)
Fixpoint run_starts (prev : option Z) (ks : list Z) : nat :=
  match ks with
  | [] => 0
  | k :: ks' =>
      ((if decide (prev = Some k) then 0 else 1) + run_starts (Some k) ks')%nat
  end.

(** The population standard deviation in words: the square root of the
    mean of the squared deviations from the mean, each mean the sum over
    the number of values. *)
Definition population_std (xs : list float) : float :=
  let mean := numpy_mean xs in
  PrimFloat.sqrt (numpy_mean (map (fun x => (x - mean) * (x - mean))%float xs)).

(** The world after [analyze] has opened [filename] and stopped. *)
Definition opened (filename : string) (w : world) : world :=
  World (files w) (calls w ++ [open_r filename]).

(** The float 1.0 as the specification of binary64 writes it. *)
Definition SF_one : spec_float := S754_finite false 4503599627370496 (-52).

(** All members of a list are equal. *)
Definition constant {A} (l : list A) : Prop :=
  forall x y, In x l -> In y l -> x = y.

(** Every record's task count is its steps times its width, as int64. *)
Definition tasks_match (c : columns) : Prop :=
  forall (i : nat) (t s w : Z),
    col_tasks c !! i = Some t -> col_steps c !! i = Some s ->
    col_width c !! i = Some w -> t = int64_mul s w.

(** Every record's task count is the exact product of its steps and its
    width. *)
Definition tasks_exact (c : columns) : Prop :=
  forall (i : nat) (t s w : Z),
    col_tasks c !! i = Some t -> col_steps c !! i = Some s ->
    col_width c !! i = Some w -> t = s * w.

(** No record's product of steps and width leaves the int64 range. *)
Definition products_fit (c : columns) : Prop :=
  forall (i : nat) (s w : Z),
    col_steps c !! i = Some s -> col_width c !! i = Some w ->
    - 2 ^ 63 <= s * w < 2 ^ 63.

(** The integers numpy stores as int64 when [int] has read them from
    digits. *)
Definition int64_capture (z : Z) : Prop := 0 <= z < 2 ^ 63.

(** A log all of whose integer captures are stored as int64: the domain on
    which the integer columns are int64 arrays. *)
Definition int64_captures (c : columns) : Prop :=
  Forall int64_capture
    (col_iterations c ++ col_steps c ++ col_tasks c ++ col_flops c
     ++ col_bytes c ++ col_width c).

(** A group whose records agree on tasks, on flops and on bytes. *)
Definition homogeneous (g : Z * list record) : Prop :=
  constant (map rec_tasks (snd g)) /\ constant (map rec_flops (snd g))
  /\ constant (map rec_bytes (snd g)).

(** One record of a log: the seven labelled lines. *)
Definition log_record (seconds : float) (its st ta fl by_ wd : Z) : list line :=
  [Elapsed_Time seconds; Iterations its; Time_Steps st; Total_Tasks ta;
   Total_FLOPs fl; Total_Bytes by_; Max_Width wd].

(** Three repetitions of a run with 4 steps of width 2. *)
Definition example_log : list line :=
  log_record 1 10 4 8 100 50 2
  ++ log_record 1.25 10 4 8 100 50 2
  ++ log_record 0.75 10 4 8 100 50 2.

(** A record whose task count is not its steps times its width. *)
Definition mismatch_log : list line := log_record 1 10 4 9 100 50 2.

(** A record whose steps times width is 2^64, which is 0 as int64, and
    whose task count is 0. *)
Definition wrapped_log : list line :=
  log_record 1 10 4294967296 0 100 50 4294967296.

(** A log in which no line matches a pattern. *)
Definition empty_log : list line := [Other "# no run was recorded"; Other ""].

(** Two repetitions of one step count that disagree on the flop count. *)
Definition divergent_log : list line :=
  log_record 1 10 4 8 100 50 2 ++ log_record 1 10 4 8 101 50 2.

(** A single record whose elapsed time overflowed to infinity, as
    [float] reads a literal such as 1e999. *)
Definition overflow_log : list line := log_record infinity 10 4 8 100 50 2.

(** Two repetitions of 4 steps that took 1 and 3 seconds, then one run
    of 5 steps. *)
Definition spread_log : list line :=
  log_record 1 10 4 8 100 50 2 ++ log_record 3 10 4 8 100 50 2
  ++ log_record 1.5 10 5 10 120 60 2.

(** Four records with the step counts 1, 1, 2, 1. *)
Definition interleaved_log : list line :=
  log_record 1 10 1 2 100 50 2 ++ log_record 1.5 10 1 2 100 50 2
  ++ log_record 2 10 2 4 200 90 2 ++ log_record 1 10 1 2 100 50 2.

(** A world that holds one log under [run.log]. *)
Definition world_of (text : list line) : world :=
  World (<["run.log" := Log text]> ∅) [].

(** The key of [_columns] whose pattern matches a line, if one does. *)
Definition field (l : line) : option string :=
  match l with
  | Elapsed_Time _ => Some "elapsed"
  | Iterations _ => Some "iterations"
  | Time_Steps _ => Some "steps"
  | Total_Tasks _ => Some "tasks"
  | Total_FLOPs _ => Some "flops"
  | Total_Bytes _ => Some "bytes"
  | Max_Width _ => Some "width"
  | Other _ => None
  end.

(** Whether a character occurs in a string. *)
Fixpoint has_char (c : ascii) (s : string) : bool :=
  match s with
  | EmptyString => false
  | String a s' => Ascii.eqb a c || has_char c s'
  end.

(** Whether a string has a character other than [c]. *)
Fixpoint has_other (c : ascii) (s : string) : bool :=
  match s with
  | EmptyString => false
  | String a s' => negb (Ascii.eqb a c) || has_other c s'
  end.

(** A path prefix that ends a directory: empty, or ending in the
    separator. *)
Definition directory_prefix (pre : string) : Prop :=
  pre = "" \/ exists d, pre = (d ++ "/")%string.

(** The path [analyze] writes for an input path. *)
Definition out_path (filename : string) : string :=
  (splitext_root filename ++ ".csv")%string.

(** Two logs under [a.log] and [b.log]; the second fails line 74. *)
Definition two_logs : world :=
  World (<["a.log" := Log example_log]> (<["b.log" := Log mismatch_log]> ∅)) [].

(** * Properties *)

(** ** [group_by] is the recursion [collect] *)

Section GroupByFacts.
Context {V : Type}.
Implicit Types (l : list (Z * V)) (group : list V) (out : list (Z * list V)).

Lemma fold_group_step l key group out :
  group_finish (fold_left (group_step Z.eqb) l (Some (key, group), out))
  = out ++ collect key group l.
Proof.
  revert key group out.
  induction l as [|[k v] l IH]; intros key group out; [reflexivity|].
  cbn [fold_left collect]. unfold group_step at 2. cbn [key_differs].
  destruct (Z.eqb_spec k key) as [->|Hne]; cbn [negb].
  - apply IH.
  - rewrite IH, <- app_assoc. reflexivity.
Qed.

Lemma group_by_collect (keys : list Z) (values : list V) :
  group_by Z.eqb keys values
  = match combine keys values with
    | [] => []
    | (k, v) :: l => collect k [v] l
    end.
Proof.
  unfold group_by. destruct (combine keys values) as [|[k v] l]; [reflexivity|].
  cbn [fold_left]. unfold group_step at 2. cbn [key_differs].
  apply (fold_group_step l k [v] []).
Qed.

Lemma ungroup_collect l key group :
  ungroup (collect key group l) = map (pair key) group ++ l.
Proof.
  revert key group.
  induction l as [|[k v] l IH]; intros key group; cbn [collect].
  - unfold ungroup. cbn. rewrite !app_nil_r. reflexivity.
  - destruct (Z.eqb_spec k key) as [->|Hne].
    + rewrite IH, map_app, <- app_assoc. reflexivity.
    + unfold ungroup in *. cbn [flat_map fst snd]. rewrite IH. reflexivity.
Qed.

Lemma collect_nonempty l key group :
  group <> [] -> Forall (fun g => snd g <> []) (collect key group l).
Proof.
  revert key group.
  induction l as [|[k v] l IH]; intros key group Hg; cbn [collect].
  - constructor; [exact Hg | constructor].
  - destruct (Z.eqb_spec k key) as [->|Hne].
    + apply IH. destruct group; discriminate.
    + constructor; [exact Hg | apply IH; discriminate].
Qed.

Lemma collect_head l key group :
  exists g gs, collect key group l = (key, g) :: gs.
Proof.
  revert group.
  induction l as [|[k v] l IH]; intros group; cbn [collect].
  - eauto.
  - destruct (Z.eqb_spec k key) as [->|Hne]; eauto.
Qed.

Lemma collect_adjacent l key group :
  adjacent_differ (map fst (collect key group l)).
Proof.
  revert key group.
  induction l as [|[k v] l IH]; intros key group; cbn [collect].
  - exact I.
  - destruct (Z.eqb_spec k key) as [->|Hne]; [apply IH|].
    specialize (IH k [v]).
    destruct (collect_head l k [v]) as (g & gs & Hc).
    rewrite Hc in IH |- *. cbn [map fst adjacent_differ] in *.
    split; [congruence | exact IH].
Qed.

Lemma collect_length l key group :
  length (collect key group l) = S (run_starts (Some key) (map fst l)).
Proof.
  revert key group.
  induction l as [|[k v] l IH]; intros key group; cbn [collect map fst run_starts].
  - reflexivity.
  - destruct (Z.eqb_spec k key) as [->|Hne].
    + rewrite IH. rewrite decide_True by reflexivity. reflexivity.
    + cbn [length]. rewrite IH, decide_False by congruence. reflexivity.
Qed.
End GroupByFacts.

(** ** What a successful analysis returns *)

(** Three repetitions of one run give one row: the mean and the population
    standard deviation of 1, 1.25 and 0.75, and the derived columns for 2
    nodes of 3 cores and a peak of 4 flops per second. *)
Example analysis_example_log :
  analysis 2 3 (Some 4%float) None example_log
  = Ok {| elapsed := [1%float]; iterations := [10]; steps := [4]; tasks := [8];
          flops := [100]; bytes := [50]; width := [2];
          std := [0x1.a20bd700c2c3ep-3%float]; reps := [3];
          derived := [("time_per_task", [750%float]);
                      ("efficiency", [12.5%float])] |}.
Proof. reflexivity. Qed.

(** The header and the row written for it, with a stand-in for the
    rendering of floats. *)
Example analyze_example_log :
  analyze (fun _ => "%e") "out/run.log" 2 3 0.5 (Some 4%float) None
    (World (<["out/run.log" := Log example_log]> ∅) [])
  = (Ok tt,
     World (<["out/run.csv" :=
                Csv [["elapsed"; "iterations"; "steps"; "tasks"; "flops"; "bytes";
                      "width"; "std"; "reps"; "time_per_task"; "efficiency"];
                     ["%e"; "10"; "4"; "8"; "100"; "50"; "2"; "%e"; "3"; "%e"; "%e"]]]>
              (<["out/run.log" := Log example_log]> ∅))
           [open_r "out/run.log"; open_w "out/run.csv"]).
Proof. reflexivity. Qed.

(** A log in which the elapsed pattern captures 1.2.3: the conversion of
    line 67 raises, and the log has only been opened. *)
Example analyze_rejected_capture :
  analyze (fun _ => "%e") "run.log" 2 3 0.5 None None
    (World (<["run.log" := Rejected "1.2.3"]> ∅) [])
  = (Raise (ValueError 67),
     World (<["run.log" := Rejected "1.2.3"]> ∅) [open_r "run.log"]).
Proof. reflexivity. Qed.

(** A node count of 401 digits: the log passes every check, and the first
    derived column raises; the checks of a log that fails one come
    first. *)
Example analysis_overflow :
  analysis (10 ^ 400) 3 None None example_log = Raise OverflowError
  /\ analysis 2 (10 ^ 400) None None example_log = Raise OverflowError
  /\ analysis (10 ^ 400) 3 None None divergent_log = Raise (AssertionError 84)
  /\ python_float (2 ^ 1024 - 1) = Raise OverflowError
  /\ python_float (2 ^ 1023) = Ok 0x1p1023%float.
Proof. repeat split; reflexivity. Qed.

Lemma rbind_ok {A B} (r : result A) (k : A -> result B) (b : B) :
  rbind r k = Ok b -> exists a, r = Ok a /\ k a = Ok b.
Proof. destruct r as [a|e]; [eauto | discriminate]. Qed.

Lemma assert_ok line b : assert line b = Ok tt -> b = true.
Proof. destruct b; [reflexivity | discriminate]. Qed.

Lemma rmap_ok {A B} (f : A -> result B) (l : list A) (rs : list B) :
  rmap f l = Ok rs -> Forall2 (fun a r => f a = Ok r) l rs.
Proof.
  revert rs. induction l as [|a l IH]; intros rs H; cbn [rmap] in H.
  - injection H as <-. constructor.
  - apply rbind_ok in H as (b & Hb & H).
    apply rbind_ok in H as (bs & Hbs & H). injection H as <-.
    constructor; [exact Hb | apply IH, Hbs].
Qed.

(** The row of a group, when the group is not empty. *)
Lemma group_row_ok k vs r :
  group_row (k, vs) = Ok r ->
  exists v0 vs', vs = v0 :: vs'
    /\ r = Row k (numpy_mean (map rec_elapsed vs)) (numpy_std (map rec_elapsed vs) 0)
             (Z.of_nat (length vs))
             (rec_tasks v0) (rec_flops v0) (rec_bytes v0)
             (same Z.eqb (map rec_tasks vs)) (same Z.eqb (map rec_flops vs))
             (same Z.eqb (map rec_bytes vs)).
Proof.
  unfold group_row. destruct vs as [|v0 vs']; [discriminate|].
  intros H. injection H as <-. exists v0, vs'. rewrite length_map. auto.
Qed.

Lemma rows_project {B} (h : row -> B) (h' : Z * list record -> B) gs rows :
  (forall g r, group_row g = Ok r -> h r = h' g) ->
  Forall2 (fun g r => group_row g = Ok r) gs rows ->
  map h rows = map h' gs.
Proof.
  intros Hh H. induction H as [|g r gs rows Hg _ IH]; [reflexivity|].
  cbn [map]. rewrite IH, (Hh g r Hg). reflexivity.
Qed.

Lemma compute_derived_base cs t :
  let t' := compute_derived cs t in
  elapsed t' = elapsed t /\ iterations t' = iterations t /\ steps t' = steps t
  /\ tasks t' = tasks t /\ flops t' = flops t /\ bytes t' = bytes t
  /\ width t' = width t /\ std t' = std t /\ reps t' = reps t.
Proof.
  unfold compute_derived. revert t.
  induction cs as [|[k f] cs IH]; intros t; cbn [fold_left]; [repeat split|].
  apply (IH (set_derived k (f t) t)).
Qed.

(** The derived columns of a table that had none: [time_per_task], then
    [efficiency] under the peak parameter that is taken as true. *)
Lemma compute_derived_columns nodes cores peak_flops peak_bytes t :
  derived t = [] ->
  derived (compute_derived (compute nodes cores peak_flops peak_bytes) t)
  = ("time_per_task", time_per_task nodes cores t)
      :: match truthy_value peak_flops, truthy_value peak_bytes with
         | Some pf, _ => [("efficiency", efficiency_flops nodes pf t)]
         | None, Some pb => [("efficiency", efficiency_bytes nodes pb t)]
         | None, None => []
         end.
Proof.
  intros Hd. unfold compute, compute_derived.
  destruct (truthy_value peak_flops) as [pf|];
    [|destruct (truthy_value peak_bytes) as [pb|]];
    cbn [fold_left app fst snd set_derived derived]; rewrite Hd; reflexivity.
Qed.

Lemma group_statistics_ok c t :
  group_statistics c = Ok t ->
  exists rows,
    Forall2 (fun g r => group_row g = Ok r) (groups c) rows
    /\ rows <> []
    /\ forallb id (map row_same_tasks rows) = true
    /\ forallb id (map row_same_flops rows) = true
    /\ forallb id (map row_same_bytes rows) = true
    /\ t = table_of_rows c rows.
Proof.
  unfold group_statistics. intros H.
  apply rbind_ok in H as (rows & Hrows & H). exists rows.
  destruct rows as [|r rows]; [discriminate|].
  apply rbind_ok in H as ([] & H1 & H).
  apply rbind_ok in H as ([] & H2 & H).
  apply rbind_ok in H as ([] & H3 & H).
  apply assert_ok in H1, H2, H3. injection H as <-.
  split; [apply rmap_ok, Hrows|]. split; [discriminate|]. auto.
Qed.

Lemma analysis_ok nodes cores peak_flops peak_bytes text T :
  analysis nodes cores peak_flops peak_bytes text = Ok T ->
  let c := parse_columns text in
  check_consistency c = Ok tt
  /\ exists t, group_statistics c = Ok t
       /\ T = compute_derived (compute nodes cores peak_flops peak_bytes) t.
Proof.
  unfold analysis. intros H.
  apply rbind_ok in H as ([] & Hc & H).
  apply rbind_ok in H as (t & Ht & H).
  apply rbind_ok in H as (x & _ & H).
  apply rbind_ok in H as (y & _ & H). injection H as <-.
  split; [exact Hc | eauto].
Qed.

Lemma python_float_ok z x : python_float z = Ok x -> x = float_of_int z.
Proof.
  unfold python_float. destruct (is_infinity (float_of_int z)); [discriminate|].
  intros H. injection H as <-. reflexivity.
Qed.

Lemma python_float_cases z :
  python_float z = Ok (float_of_int z) \/ python_float z = Raise OverflowError.
Proof.
  unfold python_float. destruct (is_infinity (float_of_int z)); auto.
Qed.

(** An analysis that returns has converted [nodes] and [cores]. *)
Lemma analysis_converts nodes cores peak_flops peak_bytes text T :
  analysis nodes cores peak_flops peak_bytes text = Ok T ->
  python_float nodes = Ok (float_of_int nodes)
  /\ python_float cores = Ok (float_of_int cores).
Proof.
  unfold analysis. intros H.
  apply rbind_ok in H as ([] & _ & H).
  apply rbind_ok in H as (t & _ & H).
  apply rbind_ok in H as (x & Hx & H).
  apply rbind_ok in H as (y & Hy & H).
  rewrite Hx, Hy, (python_float_ok _ _ Hx), (python_float_ok _ _ Hy). auto.
Qed.

Lemma analysis_rows nodes cores peak_flops peak_bytes text T :
  analysis nodes cores peak_flops peak_bytes text = Ok T ->
  let c := parse_columns text in
  exists rows,
    Forall2 (fun g r => group_row g = Ok r) (groups c) rows
    /\ rows <> []
    /\ forallb id (map row_same_tasks rows) = true
    /\ forallb id (map row_same_flops rows) = true
    /\ forallb id (map row_same_bytes rows) = true
    /\ T = compute_derived (compute nodes cores peak_flops peak_bytes)
                           (table_of_rows c rows).
Proof.
  intros H c. apply analysis_ok in H as (_ & t & Ht & ->).
  apply group_statistics_ok in Ht as (rows & H1 & H2 & H3 & H4 & H5 & ->).
  exists rows. auto 10.
Qed.

(** The columns of a returned table all have one cell per group. *)
Lemma analysis_lengths nodes cores peak_flops peak_bytes text T :
  analysis nodes cores peak_flops peak_bytes text = Ok T ->
  let n := length (groups (parse_columns text)) in
  length (elapsed T) = n /\ length (steps T) = n /\ length (tasks T) = n
  /\ length (flops T) = n /\ length (bytes T) = n /\ length (std T) = n
  /\ length (reps T) = n.
Proof.
  intros H n. apply analysis_rows in H as (rows & HF & _ & _ & _ & _ & ->).
  destruct (compute_derived_base (compute nodes cores peak_flops peak_bytes)
              (table_of_rows (parse_columns text) rows))
    as (-> & _ & -> & -> & -> & -> & _ & -> & ->).
  cbn [table_of_rows elapsed steps tasks flops bytes std reps].
  rewrite !length_map. apply Forall2_length in HF. subst n. rewrite HF. auto 10.
Qed.

(** The derived columns of a returned table. *)
Lemma analysis_derived nodes cores peak_flops peak_bytes text T :
  analysis nodes cores peak_flops peak_bytes text = Ok T ->
  derived T
  = ("time_per_task", time_per_task nodes cores T)
      :: match truthy_value peak_flops, truthy_value peak_bytes with
         | Some pf, _ => [("efficiency", efficiency_flops nodes pf T)]
         | None, Some pb => [("efficiency", efficiency_bytes nodes pb T)]
         | None, None => []
         end.
Proof.
  intros H. apply analysis_rows in H as (rows & _ & _ & _ & _ & _ & ->).
  rewrite compute_derived_columns by reflexivity.
  unfold time_per_task, efficiency_flops, efficiency_bytes.
  destruct (compute_derived_base (compute nodes cores peak_flops peak_bytes)
              (table_of_rows (parse_columns text) rows))
    as (-> & _ & _ & -> & -> & -> & _).
  reflexivity.
Qed.

(** C5.  In a table the analysis returns, the column [time_per_task] is
    present, has a cell for every row, and its cell in a row is
    elapsed / tasks * nodes * cores * 1000 of that row's [elapsed] and
    [tasks] and of the [nodes] and [cores] passed in. *)
Theorem C5_time_per_task_formula nodes cores peak_flops peak_bytes text T :
  analysis nodes cores peak_flops peak_bytes text = Ok T ->
  exists col,
    dict_get "time_per_task" (derived T) = Some col
    /\ length col = length (steps T)
    /\ forall (i : nat) (e : float) (k : Z),
         elapsed T !! i = Some e -> tasks T !! i = Some k ->
         col !! i
         = Some (e / float_of_int k * float_of_int nodes * float_of_int cores * 1000)%float.
Proof.
  intros H. exists (time_per_task nodes cores T).
  rewrite (analysis_derived _ _ _ _ _ _ H).
  destruct (analysis_lengths _ _ _ _ _ _ H) as (He & Hs & Ht & _).
  split; [reflexivity|]. split.
  - unfold time_per_task. rewrite length_zip_with. lia.
  - intros i e k Hi Hk. unfold time_per_task.
    rewrite lookup_zip_with, Hi, Hk. reflexivity.
Qed.

Lemma C5_time_per_task_formula_witness :
  exists T col,
    analysis 2 3 None None example_log = Ok T
    /\ dict_get "time_per_task" (derived T) = Some col
    /\ col !! 0%nat
       = Some (1 / float_of_int 8 * float_of_int 2 * float_of_int 3 * 1000)%float.
Proof.
  eexists.
  destruct (C5_time_per_task_formula 2 3 None None example_log _ eq_refl)
    as (col & Hc & _ & Hf).
  exists col. split; [reflexivity|]. split; [exact Hc|].
  apply Hf; reflexivity.
Defined.

(** ** The efficiency column *)

(** The keys of the table that every analysis returns. *)
Lemma items_keys T :
  map fst (items T)
  = ["elapsed"; "iterations"; "steps"; "tasks"; "flops"; "bytes"; "width";
     "std"; "reps"] ++ map fst (derived T).
Proof.
  unfold items. rewrite map_app, map_map. reflexivity.
Qed.

(** With no peak parameter taken as true there is no [efficiency]. *)
Lemma no_peak_no_efficiency nodes cores text T :
  analysis nodes cores None None text = Ok T ->
  map fst (derived T) = ["time_per_task"]
  /\ ~ In "efficiency" (map fst (items T)).
Proof.
  intros H. pose proof (analysis_derived _ _ _ _ _ _ H) as Hd.
  rewrite items_keys, Hd. split; [reflexivity|].
  cbn. intros Hin.
  repeat (destruct Hin as [Hin|Hin]; [discriminate Hin|]). exact Hin.
Qed.

(** C3, as the code has it.  A peak parameter counts when it is configured
    and is not zero.  With only a peak compute bandwidth that counts, the
    table's keys end with [time_per_task] and one [efficiency], whose cell
    in a row is (flops / elapsed / nodes) / peak_flops; with only a peak
    memory bandwidth that counts, the same with (bytes / elapsed / nodes) /
    peak_bytes; with neither configured, the keys end with [time_per_task]
    and there is no [efficiency]. *)
Theorem C3_efficiency_column nodes cores peak_flops peak_bytes text T :
  analysis nodes cores peak_flops peak_bytes text = Ok T ->
  (forall p, peak_flops = Some p -> peak_bytes = None -> float_bool p = true ->
     map fst (derived T) = ["time_per_task"; "efficiency"]
     /\ dict_get "efficiency" (derived T)
        = Some (zip_with (fun f e => (float_of_int f / e / float_of_int nodes) / p)%float
                         (flops T) (elapsed T)))
  /\ (forall p, peak_flops = None -> peak_bytes = Some p -> float_bool p = true ->
     map fst (derived T) = ["time_per_task"; "efficiency"]
     /\ dict_get "efficiency" (derived T)
        = Some (zip_with (fun b e => (float_of_int b / e / float_of_int nodes) / p)%float
                         (bytes T) (elapsed T)))
  /\ (peak_flops = None -> peak_bytes = None ->
     map fst (derived T) = ["time_per_task"]
     /\ ~ In "efficiency" (map fst (items T))).
Proof.
  intros H. pose proof (analysis_derived _ _ _ _ _ _ H) as Hd.
  split; [|split].
  - intros p -> -> Hp. cbn [truthy_value] in Hd. rewrite Hp in Hd.
    rewrite Hd. split; reflexivity.
  - intros p -> -> Hp. cbn [truthy_value] in Hd. rewrite Hp in Hd.
    rewrite Hd. split; reflexivity.
  - intros -> ->. apply (no_peak_no_efficiency _ _ _ _ H).
Qed.

Lemma C3_efficiency_column_witness :
  exists T,
    analysis 2 3 (Some 4%float) None example_log = Ok T
    /\ dict_get "efficiency" (derived T)
       = Some [(float_of_int 100 / 1 / float_of_int 2 / 4)%float].
Proof.
  eexists. split; [reflexivity|].
  destruct (C3_efficiency_column 2 3 (Some 4%float) None example_log _ eq_refl)
    as (Hf & _ & _).
  destruct (Hf 4%float eq_refl eq_refl eq_refl) as [_ ->]. reflexivity.
Defined.

(** C3 as stated fails: the peak compute bandwidth alone is configured,
    with the value 0.0, the analysis succeeds, and the table has no
    [efficiency] column. *)
Lemma C3_zero_peak_counterexample :
  exists T,
    analysis 2 3 (Some 0%float) None example_log = Ok T
    /\ map fst (derived T) = ["time_per_task"]
    /\ dict_get "efficiency" (derived T) = None.
Proof.
  eexists. split; [reflexivity|]. split; reflexivity.
Qed.

(** ** The checks of lines 71 to 74 *)

Lemma same_constant {A} (eqb : A -> A -> bool) (l : list A) :
  (forall x y, eqb x y = true <-> x = y) ->
  same eqb l = true <-> constant l.
Proof.
  intros Heq. unfold same, constant. destruct l as [|v0 l].
  - split; [intros _ x y [] | reflexivity].
  - rewrite forallb_forall. split.
    + intros H x y Hx Hy.
      apply H, Heq in Hx. apply H, Heq in Hy. congruence.
    + intros H x Hx. apply Heq, H; [exact Hx | left; reflexivity].
Qed.

Lemma same_nat_constant (l : list nat) : same Nat.eqb l = true <-> constant l.
Proof. apply same_constant, Nat.eqb_eq. Qed.

Lemma same_Z_constant (l : list Z) : same Z.eqb l = true <-> constant l.
Proof. apply same_constant, Z.eqb_eq. Qed.

Lemma forallb_id_lookup (l : list bool) :
  forallb id l = true <-> forall i b, l !! i = Some b -> b = true.
Proof.
  rewrite forallb_forall. split.
  - intros H i b Hi. apply (H b). apply list_elem_of_In.
    eapply list_elem_of_lookup_2, Hi.
  - intros H b Hb. apply list_elem_of_In, list_elem_of_lookup_1 in Hb as [i Hi].
    apply (H i b Hi).
Qed.

Lemma tasks_check_match (c : columns) :
  forallb id (tasks_eq_steps_width c) = true <-> tasks_match c.
Proof.
  rewrite forallb_id_lookup. unfold tasks_eq_steps_width, tasks_match. split.
  - intros H i t s w Ht Hs Hw. apply Z.eqb_eq, (H i).
    rewrite !lookup_zip_with, Ht, Hs, Hw. reflexivity.
  - intros H i b. rewrite !lookup_zip_with.
    destruct (col_tasks c !! i) as [t|] eqn:Ht; [|discriminate].
    destruct (col_steps c !! i) as [s|] eqn:Hs; [|discriminate].
    destruct (col_width c !! i) as [w|] eqn:Hw; [|discriminate].
    cbn. intros [= <-]. apply Z.eqb_eq, (H i); assumption.
Qed.

(** The product of an int64 multiplication is exact when it fits. *)
Lemma int64_mul_exact (a b : Z) :
  - 2 ^ 63 <= a * b < 2 ^ 63 -> int64_mul a b = a * b.
Proof.
  intros H. unfold int64_mul, int64_wrap.
  rewrite Z.mod_small by lia. lia.
Qed.

Lemma tasks_match_exact (c : columns) :
  products_fit c -> tasks_match c <-> tasks_exact c.
Proof.
  intros Hfit. unfold tasks_match, tasks_exact. split; intros H i t s w Ht Hs Hw.
  - rewrite <- (int64_mul_exact s w) by apply (Hfit i s w Hs Hw).
    apply (H i t s w Ht Hs Hw).
  - rewrite (int64_mul_exact s w) by apply (Hfit i s w Hs Hw).
    apply (H i t s w Ht Hs Hw).
Qed.

(** The integers of a log are int64 when a run of the test says so. *)
Lemma int64_captures_check (c : columns) :
  forallb (fun z => (0 <=? z) && (z <? 2 ^ 63))
    (col_iterations c ++ col_steps c ++ col_tasks c ++ col_flops c
     ++ col_bytes c ++ col_width c) = true ->
  int64_captures c.
Proof.
  unfold int64_captures, int64_capture. rewrite forallb_forall, Forall_forall.
  intros H z Hz. apply list_elem_of_In, H in Hz. lia.
Qed.

(** The outcome of the four checks, in their order. *)
Lemma check_consistency_cases (c : columns) :
  check_consistency c
  = if negb (same Nat.eqb (column_lengths c)) then Raise (AssertionError 71)
    else if negb (same Z.eqb (col_iterations c)) then Raise (AssertionError 72)
    else if negb (same Z.eqb (col_width c)) then Raise (AssertionError 73)
    else if negb (forallb id (tasks_eq_steps_width c)) then Raise (AssertionError 74)
    else Ok tt.
Proof.
  unfold check_consistency.
  destruct (same Nat.eqb (column_lengths c)); [|reflexivity].
  destruct (same Z.eqb (col_iterations c)); [|reflexivity].
  destruct (same Z.eqb (col_width c)); [|reflexivity].
  destruct (forallb id (tasks_eq_steps_width c)); reflexivity.
Qed.

Lemma analysis_check_fails nodes cores peak_flops peak_bytes text e :
  check_consistency (parse_columns text) = Raise e ->
  analysis nodes cores peak_flops peak_bytes text = Raise e.
Proof. unfold analysis. intros ->. reflexivity. Qed.

(** ** What an analysis can raise *)

(** No group of [groups] is empty, so every group has its row. *)
Lemma groups_nonempty c : Forall (fun g => snd g <> []) (groups c).
Proof.
  unfold groups. rewrite group_by_collect.
  destruct (combine _ _) as [|[k v] l]; [constructor|].
  apply collect_nonempty. discriminate.
Qed.

Lemma groups_rows c :
  exists rows, rmap group_row (groups c) = Ok rows
               /\ length rows = length (groups c).
Proof.
  induction (groups_nonempty c) as [|[k vs] gs Hg _ IH].
  - exists []. split; reflexivity.
  - destruct IH as (rows & Hrows & Hlen).
    destruct vs as [|v0 vs]; [contradiction Hg; reflexivity|].
    eexists (_ :: rows). cbn [rmap group_row rbind]. rewrite Hrows. cbn [rbind].
    split; [reflexivity | cbn [length]; congruence].
Qed.

(** An analysis that raises stops at an assertion, unless the log has no
    record at all and the unpacking of line 77 fails, or [nodes] or
    [cores] is beyond the floats. *)
Lemma analysis_raise nodes cores peak_flops peak_bytes text e :
  analysis nodes cores peak_flops peak_bytes text = Raise e ->
  (exists line, e = AssertionError line)
  \/ (e = ValueError 77 /\ groups (parse_columns text) = [])
  \/ e = OverflowError.
Proof.
  unfold analysis. set (c := parse_columns text).
  rewrite check_consistency_cases.
  destruct (negb (same Nat.eqb (column_lengths c))); [intros [= <-]; eauto|].
  destruct (negb (same Z.eqb (col_iterations c))); [intros [= <-]; eauto|].
  destruct (negb (same Z.eqb (col_width c))); [intros [= <-]; eauto|].
  destruct (negb (forallb id (tasks_eq_steps_width c))); [intros [= <-]; eauto|].
  cbn [mbind result_bind rbind].
  destruct (group_statistics c) as [t|e'] eqn:Hg; cbn [rbind].
  { destruct (python_float_cases nodes) as [-> | ->]; cbn [rbind];
      [|intros [= <-]; auto].
    destruct (python_float_cases cores) as [-> | ->]; cbn [rbind];
      [discriminate | intros [= <-]; auto]. }
  intros [= ->]. revert Hg. unfold group_statistics, mbind, result_bind.
  destruct (groups_rows c) as (rows & -> & Hlen). cbn [rbind].
  destruct rows as [|r rows].
  - intros [= <-]. right. left. split; [reflexivity|].
    destruct (groups c); [reflexivity | discriminate Hlen].
  - unfold assert.
    destruct (forallb id (map row_same_tasks (r :: rows))); cbn [rbind];
      [|intros [= <-]; eauto].
    destruct (forallb id (map row_same_flops (r :: rows))); cbn [rbind];
      [|intros [= <-]; eauto].
    destruct (forallb id (map row_same_bytes (r :: rows))); cbn [rbind];
      [discriminate | intros [= <-]; eauto].
Qed.

(** ** [analyze] and [driver] *)

Section DriverFacts.
Variable format_e : float -> string.

(** [analyze] on a log that exists: it opens the log, and writes the CSV
    only when the analysis returns a table. *)
Lemma analyze_log filename nodes cores threshold peak_flops peak_bytes w text :
  files w !! filename = Some (Log text) ->
  analyze format_e filename nodes cores threshold peak_flops peak_bytes w
  = match analysis nodes cores peak_flops peak_bytes text with
    | Ok T => write (splitext_root filename ++ ".csv")%string (csv_rows format_e T)
                    (opened filename w)
    | Raise e => (Raise e, opened filename w)
    end.
Proof.
  intros Hf. unfold analyze, mbind, io_bind, read, lift. rewrite Hf.
  cbn [captures].
  destruct (analysis nodes cores peak_flops peak_bytes text); reflexivity.
Qed.

(** [analyze] by what its path holds. *)
Lemma analyze_content filename nodes cores threshold peak_flops peak_bytes w :
  analyze format_e filename nodes cores threshold peak_flops peak_bytes w
  = match files w !! filename with
    | None => (Raise (FileNotFoundError filename), opened filename w)
    | Some c =>
        match captures c with
        | Raise e => (Raise e, opened filename w)
        | Ok text =>
            match analysis nodes cores peak_flops peak_bytes text with
            | Ok T => write (splitext_root filename ++ ".csv")%string
                            (csv_rows format_e T) (opened filename w)
            | Raise e => (Raise e, opened filename w)
            end
        end
    end.
Proof.
  unfold analyze, mbind, io_bind, read, lift, opened.
  destruct (files w !! filename) as [c|]; [|reflexivity].
  destruct (captures c) as [text|e]; [|reflexivity].
  destruct (analysis nodes cores peak_flops peak_bytes text); reflexivity.
Qed.

(** [analyze] raises what the analysis raises, the rejected capture, or
    the missing file. *)
Lemma analyze_raise filename nodes cores threshold peak_flops peak_bytes w e w' :
  analyze format_e filename nodes cores threshold peak_flops peak_bytes w
  = (Raise e, w') ->
  (exists line, e = AssertionError line) \/ (exists line, e = ValueError line)
  \/ e = OverflowError \/ (exists path, e = FileNotFoundError path).
Proof.
  unfold analyze, mbind, io_bind, read, lift.
  destruct (files w !! filename) as [[text|capture|rows]|]; cbn [captures].
  - destruct (analysis nodes cores peak_flops peak_bytes text) as [T|e'] eqn:Ha.
    + unfold write. discriminate.
    + intros [= <- _]. apply analysis_raise in Ha as [Hl|[[-> _]| ->]]; eauto.
  - intros [= <- _]. eauto.
  - destruct (analysis nodes cores peak_flops peak_bytes []) as [T|e'] eqn:Ha.
    + unfold write. discriminate.
    + intros [= <- _]. apply analysis_raise in Ha as [Hl|[[-> _]| ->]]; eauto.
  - intros [= <- _]. eauto 6.
Qed.

Lemma analyze_all_raise inputs nodes cores threshold peak_flops peak_bytes w e w' :
  analyze_all format_e inputs nodes cores threshold peak_flops peak_bytes w
  = (Raise e, w') ->
  (exists line, e = AssertionError line) \/ (exists line, e = ValueError line)
  \/ e = OverflowError \/ (exists path, e = FileNotFoundError path).
Proof.
  revert w. induction inputs as [|filename inputs IH]; intros w;
    cbn [analyze_all]; [discriminate|].
  unfold mbind at 1, io_bind at 1.
  destruct (analyze format_e filename nodes cores threshold peak_flops peak_bytes w)
    as [[[]|e1] w1] eqn:H1.
  - apply IH.
  - intros [= <- _]. apply (analyze_raise _ _ _ _ _ _ _ _ _ H1).
Qed.

(** C4.  With both peak parameters supplied, whatever their values,
    [driver] raises the configuration exception and leaves the world as
    it was: no file has been opened and none has been written.  And
    nothing else raises that exception: when a run ends with it, both
    peak parameters were supplied. *)
Theorem C4_both_peaks_configuration_error
  inputs summary nodes cores threshold (w : world) :
  (forall pf pb : float,
     driver format_e inputs summary nodes cores threshold (Some pf) (Some pb) w
     = (Raise (Exception "Can specify at most one --peak-* flag"), w))
  /\ (forall (peak_flops peak_bytes : option float) msg,
        fst (driver format_e inputs summary nodes cores threshold
               peak_flops peak_bytes w) = Raise (Exception msg) ->
        is_not_None peak_flops = true /\ is_not_None peak_bytes = true).
Proof.
  split; [reflexivity|].
  intros peak_flops peak_bytes msg. unfold driver.
  destruct (is_not_None peak_flops); [destruct (is_not_None peak_bytes)|];
    cbn [andb]; auto;
    destruct (analyze_all format_e inputs nodes cores threshold peak_flops peak_bytes w)
      as [r w'] eqn:Hrun; cbn [fst]; intros ->;
    apply analyze_all_raise in Hrun as [[line [=]]|[[line [=]]|[[=]|[path [=]]]]].
Qed.

Lemma analyze_all_threshold inputs nodes cores th1 th2 peak_flops peak_bytes :
  analyze_all format_e inputs nodes cores th1 peak_flops peak_bytes
  = analyze_all format_e inputs nodes cores th2 peak_flops peak_bytes.
Proof.
  induction inputs as [|filename inputs IH]; [reflexivity|].
  cbn [analyze_all]. rewrite IH. reflexivity.
Qed.

(** C8.  Two runs that differ only in [threshold] and [summary] end with
    the same result in the same world: the same files with the same
    rows of the same strings, after the same calls. *)
Theorem C8_threshold_summary_unused
  inputs (summary1 summary2 : option string) nodes cores (threshold1 threshold2 : float)
  peak_flops peak_bytes (w : world) :
  driver format_e inputs summary1 nodes cores threshold1 peak_flops peak_bytes w
  = driver format_e inputs summary2 nodes cores threshold2 peak_flops peak_bytes w.
Proof.
  unfold driver.
  destruct (is_not_None peak_flops && is_not_None peak_bytes); [reflexivity|].
  rewrite (analyze_all_threshold inputs nodes cores threshold1 threshold2).
  reflexivity.
Qed.
End DriverFacts.

Lemma rmap_raise {A B} (f : A -> result B) (l : list A) (e : exn) :
  rmap f l = Raise e -> exists a, In a l /\ f a = Raise e.
Proof.
  induction l as [|a l IH]; cbn [rmap]; [discriminate|].
  destruct (f a) as [b|e'] eqn:Hfa; cbn [rbind].
  - destruct (rmap f l) as [bs|e'']; cbn [rbind]; [discriminate|].
    intros [= <-]. destruct (IH eq_refl) as (a' & Hin & Ha').
    exists a'. split; [right; exact Hin | exact Ha'].
  - intros [= <-]. exists a. split; [left; reflexivity | exact Hfa].
Qed.

(** What lines 77 to 88 can raise. *)
Lemma group_statistics_raise c e :
  group_statistics c = Raise e ->
  In e [ValueError 81; ValueError 77; AssertionError 83; AssertionError 84;
        AssertionError 85].
Proof.
  unfold group_statistics, mbind, result_bind.
  destruct (rmap group_row (groups c)) as [rows|e'] eqn:Hrows; cbn [rbind].
  - destruct rows as [|r rows]; [intros [= <-]; cbn; auto|].
    unfold assert.
    destruct (forallb id (map row_same_tasks (r :: rows))); cbn [rbind];
      [|intros [= <-]; cbn; auto].
    destruct (forallb id (map row_same_flops (r :: rows))); cbn [rbind];
      [|intros [= <-]; cbn; auto].
    destruct (forallb id (map row_same_bytes (r :: rows))); cbn [rbind];
      [discriminate | intros [= <-]; cbn; auto 6].
  - intros [= <-]. apply rmap_raise in Hrows as ([k vs] & _ & Hg).
    unfold group_row in Hg. destruct vs; [|discriminate].
    injection Hg as <-. cbn; auto.
Qed.

(** Closes the cases of a check that fails: the conjuncts whose premises
    contradict the outcome, and the one that names the assertion raised. *)
Ltac stops_at Hc :=
  repeat split; try congruence; intros;
  rewrite (analysis_check_fails _ _ _ _ _ _ Hc); reflexivity.

Section ValidationFacts.
Variable format_e : float -> string.

(** C2, as the code has it.  On a log that exists and whose integers are
    all stored as int64, [analyze] runs the four checks in the order:
    equal lengths of the seven columns, constant [iterations], constant
    [width], and tasks = steps * width in every record, where the product
    is the int64 product, which wraps around.  The first check that fails
    raises the assertion of its line, and the world is then the one
    before the call with the log opened: no file was written.  When the
    four checks hold, none of their assertions is raised.  The int64
    product is the exact product whenever that fits in 64 bits, and then
    a record whose task count is not the exact product fails the fourth
    check. *)
Theorem C2_consistency_checks_in_order
  filename nodes cores threshold peak_flops peak_bytes (w : world) text :
  files w !! filename = Some (Log text) ->
  let c := parse_columns text in
  int64_captures c ->
  let run := analyze format_e filename nodes cores threshold peak_flops peak_bytes w in
  let stopped := World (files w) (calls w ++ [open_r filename]) in
  (products_fit c -> tasks_match c <-> tasks_exact c)
  /\ (~ constant (column_lengths c) -> run = (Raise (AssertionError 71), stopped))
  /\ (constant (column_lengths c) -> ~ constant (col_iterations c) ->
      run = (Raise (AssertionError 72), stopped))
  /\ (constant (column_lengths c) -> constant (col_iterations c) ->
      ~ constant (col_width c) ->
      run = (Raise (AssertionError 73), stopped))
  /\ (constant (column_lengths c) -> constant (col_iterations c) ->
      constant (col_width c) -> ~ tasks_match c ->
      run = (Raise (AssertionError 74), stopped))
  /\ (constant (column_lengths c) -> constant (col_iterations c) ->
      constant (col_width c) -> tasks_match c ->
      forall line, In line [71; 72; 73; 74]%nat ->
                   fst run <> Raise (AssertionError line)).
Proof.
  intros Hf c _ run stopped. split; [apply tasks_match_exact|]. subst run.
  rewrite (analyze_log format_e _ _ _ _ _ _ _ _ Hf). fold c.
  pose proof (check_consistency_cases c) as Hc.
  rewrite <- same_nat_constant, <- !same_Z_constant, <- tasks_check_match.
  destruct (same Nat.eqb (column_lengths c)); [|stops_at Hc].
  destruct (same Z.eqb (col_iterations c)); [|stops_at Hc].
  destruct (same Z.eqb (col_width c)); [|stops_at Hc].
  destruct (forallb id (tasks_eq_steps_width c)); [|stops_at Hc].
  cbn [negb] in Hc. repeat split; try congruence.
  intros _ _ _ _ line Hline. unfold analysis. fold c. rewrite Hc.
  cbn [mbind result_bind rbind].
  destruct (group_statistics c) as [t|e] eqn:Hg; cbn [rbind].
  - destruct (python_float_cases nodes) as [-> | ->]; cbn [rbind fst];
      [|discriminate].
    destruct (python_float_cases cores) as [-> | ->]; cbn [rbind fst];
      [|discriminate].
    unfold write. cbn [fst]. discriminate.
  - cbn [fst]. intros [= ->]. apply group_statistics_raise in Hg.
    cbn in Hg, Hline.
    repeat (destruct Hg as [Hg|Hg]; [injection Hg as <- || discriminate Hg; lia|]).
    exact Hg.
Qed.

(** C9.  On a log with no record for any field, the four checks pass,
    and [analyze] raises the unpacking error of line 77 with the log
    opened and no file written. *)
Theorem C9_empty_log_unpack_error
  filename nodes cores threshold peak_flops peak_bytes (w : world) text :
  files w !! filename = Some (Log text) ->
  column_lengths (parse_columns text) = [0; 0; 0; 0; 0; 0; 0]%nat ->
  check_consistency (parse_columns text) = Ok tt
  /\ analyze format_e filename nodes cores threshold peak_flops peak_bytes w
     = (Raise (ValueError 77), World (files w) (calls w ++ [open_r filename])).
Proof.
  intros Hf Hlen. rewrite (analyze_log format_e _ _ _ _ _ _ _ _ Hf).
  unfold analysis. destruct (parse_columns text) as [e i s t f b wd].
  unfold column_lengths in Hlen. cbn in Hlen.
  injection Hlen as He Hi Hs Ht Hfl Hb Hw.
  apply length_zero_iff_nil in He, Hi, Hs, Ht, Hfl, Hb, Hw. subst.
  split; reflexivity.
Qed.
End ValidationFacts.

Lemma C2_consistency_checks_in_order_witness :
  int64_captures (parse_columns mismatch_log)
  /\ analyze (fun _ => "") "run.log" 2 3 0.5 None None (world_of mismatch_log)
     = (Raise (AssertionError 74),
        World (files (world_of mismatch_log)) [open_r "run.log"]).
Proof.
  assert (Hd : int64_captures (parse_columns mismatch_log)).
  { apply int64_captures_check. reflexivity. }
  split; [exact Hd|].
  destruct (C2_consistency_checks_in_order (fun _ => "") "run.log" 2 3 0.5%float
              None None (world_of mismatch_log) mismatch_log eq_refl Hd)
    as (_ & _ & _ & _ & H & _).
  apply H.
  - apply same_nat_constant. reflexivity.
  - apply same_Z_constant. reflexivity.
  - apply same_Z_constant. reflexivity.
  - intros Hm. apply tasks_check_match in Hm. discriminate Hm.
Defined.

(** C2 as stated fails: the one record of the log has 4294967296 steps of
    width 4294967296 and 0 tasks, all of them int64; its task count is not
    its steps times its width, yet the fourth check passes, because the
    int64 product is 0, and the CSV is written. *)
Lemma C2_wrapped_product_counterexample :
  exists T,
    int64_captures (parse_columns wrapped_log)
    /\ col_steps (parse_columns wrapped_log) = [4294967296]
    /\ col_width (parse_columns wrapped_log) = [4294967296]
    /\ col_tasks (parse_columns wrapped_log) = [0]
    /\ (0 =? 4294967296 * 4294967296) = false
    /\ ~ tasks_exact (parse_columns wrapped_log)
    /\ check_consistency (parse_columns wrapped_log) = Ok tt
    /\ analysis 2 3 None None wrapped_log = Ok T
    /\ analyze (fun _ => "") "run.log" 2 3 0.5 None None (world_of wrapped_log)
       = (Ok tt,
          World (<["run.csv" := Csv (csv_rows (fun _ => "") T)]>
                   (files (world_of wrapped_log)))
                [open_r "run.log"; open_w "run.csv"]).
Proof.
  eexists. split; [apply int64_captures_check; reflexivity|].
  do 4 (split; [reflexivity|]).
  split; [intros H; specialize (H 0%nat 0 4294967296 4294967296 eq_refl eq_refl eq_refl);
          discriminate H|].
  split; [reflexivity|]. split; reflexivity.
Qed.

Lemma C9_empty_log_unpack_error_witness :
  check_consistency (parse_columns empty_log) = Ok tt
  /\ analyze (fun _ => "") "run.log" 2 3 0.5 None None (world_of empty_log)
     = (Raise (ValueError 77),
        World (files (world_of empty_log)) [open_r "run.log"]).
Proof.
  apply (C9_empty_log_unpack_error (fun _ => "") "run.log" 2 3 0.5%float
           None None (world_of empty_log) empty_log); reflexivity.
Defined.

(** ** A peak parameter of value zero *)

Section ZeroPeak.
Variable format_e : float -> string.

Lemma analyze_all_zero_flops inputs nodes cores threshold :
  analyze_all format_e inputs nodes cores threshold (Some 0%float) None
  = analyze_all format_e inputs nodes cores threshold None None.
Proof.
  induction inputs as [|filename inputs IH]; [reflexivity|].
  cbn [analyze_all]. rewrite IH. reflexivity.
Qed.

Lemma analyze_all_zero_bytes inputs nodes cores threshold :
  analyze_all format_e inputs nodes cores threshold None (Some 0%float)
  = analyze_all format_e inputs nodes cores threshold None None.
Proof.
  induction inputs as [|filename inputs IH]; [reflexivity|].
  cbn [analyze_all]. rewrite IH. reflexivity.
Qed.

(** C10.  A peak parameter supplied as 0.0 is supplied: together with
    the other one, whatever its value, it makes [driver] raise the
    configuration exception.  Supplied alone it is taken as false where
    the efficiency formula is chosen: the run is the run with no peak
    parameter at all, and a table the analysis returns has no
    [efficiency] key, so the CSV header has none. *)
Theorem C10_zero_peak_supplied_but_false
  inputs summary nodes cores threshold (p : float) (w : world) text :
  driver format_e inputs summary nodes cores threshold (Some 0%float) (Some p) w
  = (Raise (Exception "Can specify at most one --peak-* flag"), w)
  /\ driver format_e inputs summary nodes cores threshold (Some p) (Some 0%float) w
     = (Raise (Exception "Can specify at most one --peak-* flag"), w)
  /\ driver format_e inputs summary nodes cores threshold (Some 0%float) None w
     = driver format_e inputs summary nodes cores threshold None None w
  /\ driver format_e inputs summary nodes cores threshold None (Some 0%float) w
     = driver format_e inputs summary nodes cores threshold None None w
  /\ (forall T,
        analysis nodes cores (Some 0%float) None text = Ok T
        \/ analysis nodes cores None (Some 0%float) text = Ok T ->
        map fst (derived T) = ["time_per_task"]
        /\ ~ In "efficiency" (hd [] (csv_rows format_e T))).
Proof.
  split; [reflexivity|]. split; [reflexivity|].
  split; [unfold driver; cbn [is_not_None andb];
          rewrite analyze_all_zero_flops; reflexivity|].
  split; [unfold driver; cbn [is_not_None andb];
          rewrite analyze_all_zero_bytes; reflexivity|].
  intros T HT.
  assert (H : analysis nodes cores None None text = Ok T)
    by (destruct HT as [HT|HT]; exact HT).
  apply (no_peak_no_efficiency _ _ _ _ H).
Qed.
End ZeroPeak.

(** ** The cascade of checks *)

Lemma ungroup_group_by {V} (keys : list Z) (values : list V) :
  ungroup (group_by Z.eqb keys values) = combine keys values.
Proof.
  rewrite group_by_collect. destruct (combine keys values) as [|[k v] l].
  - reflexivity.
  - rewrite ungroup_collect. reflexivity.
Qed.

(** The text decides the rows; the parameters only enter once the checks
    have passed: [nodes] and [cores] are converted, and the derived columns
    computed. *)
Lemma analysis_cascade text :
  let c := parse_columns text in
  exists rows,
    Forall2 (fun g r => group_row g = Ok r) (groups c) rows
    /\ forall nodes cores peak_flops peak_bytes,
        analysis nodes cores peak_flops peak_bytes text
        = if negb (same Nat.eqb (column_lengths c)) then Raise (AssertionError 71)
          else if negb (same Z.eqb (col_iterations c)) then Raise (AssertionError 72)
          else if negb (same Z.eqb (col_width c)) then Raise (AssertionError 73)
          else if negb (forallb id (tasks_eq_steps_width c)) then Raise (AssertionError 74)
          else match rows with
               | [] => Raise (ValueError 77)
               | _ =>
                   if negb (forallb id (map row_same_tasks rows)) then Raise (AssertionError 83)
                   else if negb (forallb id (map row_same_flops rows)) then Raise (AssertionError 84)
                   else if negb (forallb id (map row_same_bytes rows)) then Raise (AssertionError 85)
                   else python_float nodes;;
                        python_float cores;;
                        Ok (compute_derived (compute nodes cores peak_flops peak_bytes)
                                            (table_of_rows c rows))
               end.
Proof.
  intros c. destruct (groups_rows c) as (rows & Hrows & _).
  exists rows. split; [apply rmap_ok, Hrows|].
  intros nodes cores peak_flops peak_bytes.
  unfold analysis. fold c. rewrite check_consistency_cases.
  destruct (negb (same Nat.eqb (column_lengths c))); [reflexivity|].
  destruct (negb (same Z.eqb (col_iterations c))); [reflexivity|].
  destruct (negb (same Z.eqb (col_width c))); [reflexivity|].
  destruct (negb (forallb id (tasks_eq_steps_width c))); [reflexivity|].
  cbn [mbind result_bind rbind]. unfold group_statistics, mbind, result_bind.
  rewrite Hrows. cbn [rbind]. destruct rows as [|r rows]; [reflexivity|].
  unfold assert.
  destruct (forallb id (map row_same_tasks (r :: rows))); [|reflexivity].
  destruct (forallb id (map row_same_flops (r :: rows))); [|reflexivity].
  destruct (forallb id (map row_same_bytes (r :: rows))); reflexivity.
Qed.

Lemma zip_records_lookup e t f b (i : nat) v :
  zip_records e t f b !! i = Some v ->
  e !! i = Some (rec_elapsed v) /\ t !! i = Some (rec_tasks v)
  /\ f !! i = Some (rec_flops v) /\ b !! i = Some (rec_bytes v).
Proof.
  revert t f b i.
  induction e as [|x e IH]; intros [|y t] [|z f] [|u b] i; cbn [zip_records];
    try discriminate.
  destruct i as [|i]; cbn.
  - intros [= <-]. auto.
  - apply IH.
Qed.

Lemma combine_lookup {A B} (l : list A) (k : list B) (i : nat) a b :
  combine l k !! i = Some (a, b) -> l !! i = Some a /\ k !! i = Some b.
Proof.
  revert k i. induction l as [|x l IH]; intros [|y k] i; cbn [combine];
    try discriminate.
  destruct i as [|i]; cbn.
  - intros [= <- <-]. auto.
  - apply IH.
Qed.

(** Once the four checks have passed, every record's task count is the
    int64 product of its group's key and the one width of the file. *)
Lemma checked_tasks c :
  check_consistency c = Ok tt ->
  exists w0, forall g v, In g (groups c) -> In v (snd g) ->
                         rec_tasks v = int64_mul (fst g) w0.
Proof.
  intros Hc. pose proof Hc as Hchk. rewrite check_consistency_cases in Hc.
  destruct (same Nat.eqb (column_lengths c)) eqn:Hl; [|discriminate].
  destruct (same Z.eqb (col_iterations c)); [|discriminate].
  destruct (same Z.eqb (col_width c)) eqn:Hw; [|discriminate].
  destruct (forallb id (tasks_eq_steps_width c)) eqn:Ht; [|discriminate].
  apply same_nat_constant in Hl. apply same_Z_constant in Hw.
  apply tasks_check_match in Ht.
  exists (hd 0 (col_width c)). intros [k vs] v Hg Hv. cbn [fst snd] in *.
  assert (Hin : In (k, v) (ungroup (groups c))).
  { unfold ungroup. apply in_flat_map. exists (k, vs). split; [exact Hg|].
    cbn [fst snd]. apply in_map, Hv. }
  unfold groups in Hin. rewrite ungroup_group_by in Hin.
  apply list_elem_of_In, list_elem_of_lookup_1 in Hin as [i Hi].
  apply combine_lookup in Hi as [Hs Hr].
  apply zip_records_lookup in Hr as (_ & Htk & _).
  assert (Hlen : length (col_width c) = length (col_steps c))
    by (unfold column_lengths in Hl; apply Hl; cbn; auto 10).
  destruct (col_width c !! i) as [w|] eqn:Hwi.
  - rewrite (Ht i _ _ _ Htk Hs Hwi). f_equal.
    apply Hw.
    + apply list_elem_of_In. eapply list_elem_of_lookup_2, Hwi.
    + destruct (col_width c); [discriminate Hwi | left; reflexivity].
  - apply lookup_ge_None in Hwi. apply lookup_lt_Some in Hs. lia.
Qed.

Lemma rows_flags gs rows :
  Forall2 (fun g r => group_row g = Ok r) gs rows ->
  map row_same_tasks rows = map (fun g => same Z.eqb (map rec_tasks (snd g))) gs
  /\ map row_same_flops rows = map (fun g => same Z.eqb (map rec_flops (snd g))) gs
  /\ map row_same_bytes rows = map (fun g => same Z.eqb (map rec_bytes (snd g))) gs.
Proof.
  intros HF. repeat split; (apply rows_project; [|exact HF]);
    intros [k vs] r Hr; apply group_row_ok in Hr as (v0 & vs' & -> & ->);
    reflexivity.
Qed.

(** The assertion of line 83 holds whenever it is reached. *)
Lemma checked_same_tasks c rows :
  check_consistency c = Ok tt ->
  Forall2 (fun g r => group_row g = Ok r) (groups c) rows ->
  forallb id (map row_same_tasks rows) = true.
Proof.
  intros Hc HF. destruct (rows_flags _ _ HF) as (-> & _).
  destruct (checked_tasks c Hc) as [w0 Hw0].
  apply forallb_forall. intros b Hb. apply in_map_iff in Hb as (g & <- & Hg).
  unfold id.
  apply same_Z_constant. intros x y Hx Hy.
  apply in_map_iff in Hx as (vx & <- & Hvx).
  apply in_map_iff in Hy as (vy & <- & Hvy).
  rewrite (Hw0 g vx Hg Hvx), (Hw0 g vy Hg Hvy). reflexivity.
Qed.

(** ** Homogeneous groups *)

Lemma rows_homogeneous gs rows :
  Forall2 (fun g r => group_row g = Ok r) gs rows ->
  forallb id (map row_same_tasks rows) = true ->
  forallb id (map row_same_flops rows) = true ->
  forallb id (map row_same_bytes rows) = true ->
  Forall homogeneous gs
  /\ Forall2 (fun g t => head (map rec_tasks (snd g)) = Some t) gs (map row_tasks rows)
  /\ Forall2 (fun g f => head (map rec_flops (snd g)) = Some f) gs (map row_flops rows)
  /\ Forall2 (fun g b => head (map rec_bytes (snd g)) = Some b) gs (map row_bytes rows).
Proof.
  induction 1 as [|[k vs] r gs rows Hg _ IH]; cbn [map forallb].
  - intros _ _ _. repeat split; constructor.
  - rewrite !andb_true_iff. intros [Ht Hts] [Hf Hfs] [Hb Hbs].
    destruct (IH Hts Hfs Hbs) as (IH1 & IH2 & IH3 & IH4).
    apply group_row_ok in Hg as (v0 & vs' & -> & ->).
    unfold id in Ht, Hf, Hb. cbn [row_same_tasks row_same_flops row_same_bytes] in *.
    apply same_Z_constant in Ht, Hf, Hb.
    repeat split; constructor; try assumption; try reflexivity.
    repeat split; assumption.
Qed.

Lemma forallb_same_constant {A} (proj : A -> Z) (gs : list (Z * list A)) :
  forallb id (map (fun g => same Z.eqb (map proj (snd g))) gs) = true
  <-> Forall (fun g => constant (map proj (snd g))) gs.
Proof.
  induction gs as [|g gs IH]; cbn [map forallb].
  - split; [constructor | reflexivity].
  - rewrite andb_true_iff, IH, Forall_cons. unfold id at 1.
    rewrite same_Z_constant. reflexivity.
Qed.

Lemma exists_not_constant {A} (proj : A -> Z) (gs : list (Z * list A)) :
  Exists (fun g => ~ constant (map proj (snd g))) gs ->
  forallb id (map (fun g => same Z.eqb (map proj (snd g))) gs) = false.
Proof.
  intros Hex.
  destruct (forallb id (map (fun g => same Z.eqb (map proj (snd g))) gs)) eqn:Hb;
    [|reflexivity].
  apply forallb_same_constant in Hb. apply Exists_exists in Hex as (g & Hin & Hn).
  rewrite Forall_forall in Hb. contradiction (Hn (Hb g Hin)).
Qed.

Lemma check_consistency_raise c e :
  check_consistency c = Raise e -> exists line, e = AssertionError line.
Proof.
  rewrite check_consistency_cases.
  destruct (negb (same Nat.eqb (column_lengths c))); [intros [= <-]; eauto|].
  destruct (negb (same Z.eqb (col_iterations c))); [intros [= <-]; eauto|].
  destruct (negb (same Z.eqb (col_width c))); [intros [= <-]; eauto|].
  destruct (negb (forallb id (tasks_eq_steps_width c))); [intros [= <-]; eauto|].
  discriminate.
Qed.

(** Once the four checks have passed, the groups agree on tasks. *)
Lemma checked_groups_tasks c :
  check_consistency c = Ok tt ->
  Forall (fun g => constant (map rec_tasks (snd g))) (groups c).
Proof.
  intros Hc. destruct (checked_tasks c Hc) as [w0 Hw0].
  apply Forall_forall. intros g Hg x y Hx Hy. apply list_elem_of_In in Hg.
  apply in_map_iff in Hx as (vx & <- & Hvx).
  apply in_map_iff in Hy as (vy & <- & Hvy).
  rewrite (Hw0 g vx Hg Hvx), (Hw0 g vy Hg Hvy). reflexivity.
Qed.

(** The analysis of a log that has passed the four checks, by its groups. *)
Lemma analysis_checked text :
  let c := parse_columns text in
  check_consistency c = Ok tt ->
  exists rows,
    Forall2 (fun g r => group_row g = Ok r) (groups c) rows
    /\ forall nodes cores peak_flops peak_bytes,
         analysis nodes cores peak_flops peak_bytes text
         = match groups c with
           | [] => Raise (ValueError 77)
           | _ =>
               if negb (forallb id (map (fun g => same Z.eqb (map rec_flops (snd g)))
                                        (groups c)))
               then Raise (AssertionError 84)
               else if negb (forallb id (map (fun g => same Z.eqb (map rec_bytes (snd g)))
                                             (groups c)))
               then Raise (AssertionError 85)
               else python_float nodes;;
                    python_float cores;;
                    Ok (compute_derived (compute nodes cores peak_flops peak_bytes)
                                        (table_of_rows c rows))
           end.
Proof.
  intros c Hc. destruct (analysis_cascade text) as (rows & HF & Ha). fold c in HF.
  exists rows. split; [exact HF|]. intros nodes cores peak_flops peak_bytes.
  rewrite Ha. fold c. clear Ha.
  pose proof Hc as Hc'. rewrite check_consistency_cases in Hc'.
  destruct (negb (same Nat.eqb (column_lengths c))); [discriminate|].
  destruct (negb (same Z.eqb (col_iterations c))); [discriminate|].
  destruct (negb (same Z.eqb (col_width c))); [discriminate|].
  destruct (negb (forallb id (tasks_eq_steps_width c))); [discriminate|].
  destruct (rows_flags _ _ HF) as (_ & <- & <-).
  pose proof (checked_same_tasks _ _ Hc HF) as Ht. revert Ht.
  destruct HF as [|g r gs rows' Hg HF]; [reflexivity|].
  intros ->. reflexivity.
Qed.

Section Homogeneity.
Variable format_e : float -> string.

(** C6.  On a log that exists: in a table the analysis returns, every
    group agrees on tasks, on flops and on bytes, and the row of a group
    carries the first record's tasks, flops and bytes; when some group
    disagrees on one of the three, [analyze] stops at an assertion, with
    the log opened and no file written.  For a log whose integers are all
    stored as int64 and that has passed the four checks of lines 71 to
    74: when it has a record, its groups all agree, and [nodes] and
    [cores] convert, the analysis does return a table and [analyze]
    writes its CSV; when a group disagrees on flops, [analyze] stops at
    the assertion of line 84; and when the groups agree on flops and one
    disagrees on bytes, at the assertion of line 85. *)
Theorem C6_groups_homogeneous
  filename nodes cores threshold peak_flops peak_bytes (w : world) text :
  files w !! filename = Some (Log text) ->
  let c := parse_columns text in
  let gs := groups c in
  let run := analyze format_e filename nodes cores threshold peak_flops peak_bytes w in
  let stopped := World (files w) (calls w ++ [open_r filename]) in
  (forall T, analysis nodes cores peak_flops peak_bytes text = Ok T ->
     Forall homogeneous gs
     /\ Forall2 (fun g t => head (map rec_tasks (snd g)) = Some t) gs (tasks T)
     /\ Forall2 (fun g f => head (map rec_flops (snd g)) = Some f) gs (flops T)
     /\ Forall2 (fun g b => head (map rec_bytes (snd g)) = Some b) gs (bytes T))
  /\ (Exists (fun g => ~ homogeneous g) gs ->
      exists line, run = (Raise (AssertionError line), stopped))
  /\ (int64_captures c -> check_consistency c = Ok tt ->
      (gs <> [] -> Forall homogeneous gs ->
       python_float nodes = Ok (float_of_int nodes) ->
       python_float cores = Ok (float_of_int cores) ->
       exists T,
         analysis nodes cores peak_flops peak_bytes text = Ok T
         /\ run = write (splitext_root filename ++ ".csv")%string
                        (csv_rows format_e T) stopped)
      /\ (Exists (fun g => ~ constant (map rec_flops (snd g))) gs ->
          run = (Raise (AssertionError 84), stopped))
      /\ (Forall (fun g => constant (map rec_flops (snd g))) gs ->
          Exists (fun g => ~ constant (map rec_bytes (snd g))) gs ->
          run = (Raise (AssertionError 85), stopped))).
Proof.
  intros Hf c gs run stopped.
  assert (Hok : forall T, analysis nodes cores peak_flops peak_bytes text = Ok T ->
     Forall homogeneous gs
     /\ Forall2 (fun g t => head (map rec_tasks (snd g)) = Some t) gs (tasks T)
     /\ Forall2 (fun g f => head (map rec_flops (snd g)) = Some f) gs (flops T)
     /\ Forall2 (fun g b => head (map rec_bytes (snd g)) = Some b) gs (bytes T)).
  { intros T HT.
    apply analysis_rows in HT as (rows & HF & _ & Ht & Hfl & Hb & ->).
    destruct (compute_derived_base (compute nodes cores peak_flops peak_bytes)
                (table_of_rows (parse_columns text) rows))
      as (_ & _ & _ & -> & -> & -> & _).
    apply (rows_homogeneous _ _ HF Ht Hfl Hb). }
  split; [exact Hok|]. subst run.
  rewrite (analyze_log format_e _ _ _ _ _ _ _ _ Hf). fold stopped.
  split.
  - intros Hex.
    destruct (check_consistency c) as [[]|e] eqn:Hc.
    + destruct (analysis_checked text Hc) as (rows & HF & Ha). rewrite Ha. fold c gs.
      pose proof (checked_groups_tasks c Hc) as Htk. fold gs in Htk.
      destruct gs as [|g gs'] eqn:Hgs; [inversion Hex|]. rewrite <- Hgs in *.
      destruct (forallb id (map (fun g => same Z.eqb (map rec_flops (snd g))) gs))
        eqn:Hfl; cbn [negb]; [|eauto].
      destruct (forallb id (map (fun g => same Z.eqb (map rec_bytes (snd g))) gs))
        eqn:Hby; cbn [negb]; [|eauto].
      apply forallb_same_constant in Hfl, Hby.
      apply Exists_exists in Hex as (g0 & Hin & Hn).
      rewrite Forall_forall in Htk, Hfl, Hby.
      contradiction Hn. repeat split; auto.
    + rewrite (analysis_check_fails _ _ _ _ _ _ Hc).
      apply check_consistency_raise in Hc as [line ->]. eauto.
  - intros _ Hc.
    destruct (analysis_checked text Hc) as (rows & HF & Ha). rewrite Ha. fold c gs.
    fold c gs in HF. clear Ha.
    split; [|split].
    + intros Hne Hall Hn Hcs.
      destruct gs as [|g gs'] eqn:Hgs; [contradiction Hne; reflexivity|].
      rewrite <- Hgs in *.
      assert (Hfl : Forall (fun g => constant (map rec_flops (snd g))) gs)
        by (eapply Forall_impl; [exact Hall | intros g0 H0; apply H0]).
      assert (Hby : Forall (fun g => constant (map rec_bytes (snd g))) gs)
        by (eapply Forall_impl; [exact Hall | intros g0 H0; apply H0]).
      apply forallb_same_constant in Hfl, Hby. rewrite Hfl, Hby, Hn, Hcs.
      cbn [negb mbind result_bind rbind]. eexists. split; reflexivity.
    + intros Hex. destruct gs as [|g gs'] eqn:Hgs; [inversion Hex|].
      rewrite <- Hgs in *.
      rewrite (exists_not_constant _ _ Hex). reflexivity.
    + intros Hall Hex. destruct gs as [|g gs'] eqn:Hgs; [inversion Hex|].
      rewrite <- Hgs in *.
      apply forallb_same_constant in Hall. rewrite Hall.
      rewrite (exists_not_constant _ _ Hex). reflexivity.
Qed.
End Homogeneity.

(** ** Binary64 facts behind a one-record group

    From the specification of the primitive floats: dividing by 1.0 is
    exact, and a finite float minus itself is zero. *)

Lemma fexp_unfold k : fexp prec emax k = Z.max (k - 53) (-1074).
Proof. reflexivity. Qed.

Lemma valid_finite_inv s m e :
  valid_binary (S754_finite s m e) = true ->
  Z.max (Zpos (digits2_pos m) + e - 53) (-1074) = e /\ e <= 971.
Proof.
  cbn [SpecFloat.valid_binary]. unfold bounded, canonical_mantissa.
  rewrite andb_true_iff, Z.eqb_eq, Z.leb_le, fexp_unfold.
  change (emax - prec) with 971. auto.
Qed.

Lemma shr_fexp_exact_0 m e :
  Z.max (Zpos (digits2_pos m) + e - 53) (-1074) = e ->
  shr_fexp prec emax (Zpos m) e loc_Exact = ({| shr_m := Zpos m; shr_r := false; shr_s := false |}, e).
Proof.
  intros H. unfold shr_fexp. cbn [Zdigits2]. rewrite fexp_unfold, H, Z.sub_diag. reflexivity.
Qed.

Lemma binary_round_aux_canonical s m e :
  Z.max (Zpos (digits2_pos m) + e - 53) (-1074) = e -> e <= 971 ->
  binary_round_aux prec emax s (Zpos m) e loc_Exact = S754_finite s m e.
Proof.
  intros H He. unfold binary_round_aux.
  rewrite (shr_fexp_exact_0 m e H). cbn [shr_m loc_of_shr_record round_nearest_even].
  rewrite (shr_fexp_exact_0 m e H). cbn [shr_m].
  change (emax - prec) with 971.
  destruct (Z.leb_spec e 971); [reflexivity | lia].
Qed.

Lemma binary_round_aux_double s m e :
  Z.max (Zpos (digits2_pos m) + e - 53) (-1074) = e -> e <= 971 ->
  binary_round_aux prec emax s (Zpos m~0) (e - 1) loc_Exact = S754_finite s m e.
Proof.
  intros H He. unfold binary_round_aux.
  assert (Hs : shr_fexp prec emax (Zpos m~0) (e - 1) loc_Exact
               = ({| shr_m := Zpos m; shr_r := false; shr_s := false |}, e)).
  { unfold shr_fexp. cbn [Zdigits2 digits2_pos]. rewrite fexp_unfold.
    replace (Z.max (Zpos (Pos.succ (digits2_pos m)) + (e - 1) - 53) (-1074) - (e - 1)) with 1 by lia.
    cbn. f_equal. lia. }
  rewrite Hs. cbn [shr_m loc_of_shr_record round_nearest_even].
  rewrite (shr_fexp_exact_0 m e H). cbn [shr_m].
  change (emax - prec) with 971.
  destruct (Z.leb_spec e 971); [reflexivity | lia].
Qed.

Lemma SF64div_one s m e :
  valid_binary (S754_finite s m e) = true ->
  SF64div (S754_finite s m e) SF_one = S754_finite s m e.
Proof.
  intros Hv. apply valid_finite_inv in Hv as [H He].
  unfold SF64div, SF_one. cbn [SFdiv]. rewrite xorb_false_r.
  unfold SFdiv_core_binary. cbn [Zdigits2]. rewrite fexp_unfold.
  change (Zpos (digits2_pos 4503599627370496)) with 53.
  destruct (Z.eq_dec e (-1074)) as [->|Hne].
  - replace (Z.min _ _) with (-1074) by lia.
    change (-1074 - -52 - -1074) with 52.
    cbv beta iota zeta.
    assert (Hd : Z.div_eucl (Z.shiftl (Zpos m) 52) 4503599627370496 = (Zpos m, 0)).
    { rewrite Z.shiftl_mul_pow2 by lia. change (2 ^ 52) with 4503599627370496.
      pose proof (Z.div_eucl_eq (Zpos m * 4503599627370496) 4503599627370496 ltac:(lia)) as Heq.
      pose proof (Z.mod_pos_bound (Zpos m * 4503599627370496) 4503599627370496 ltac:(lia)) as Hb.
      unfold Z.modulo in Hb.
      destruct (Z.div_eucl (Zpos m * 4503599627370496) 4503599627370496) as [q r].
      f_equal; lia. }
    rewrite Hd. cbn [new_location Z.even new_location_even Z.eqb].
    apply binary_round_aux_canonical; assumption.
  - replace (Z.min _ _) with (e - 1) by lia.
    replace (e - -52 - (e - 1)) with 53 by lia.
    cbv beta iota zeta.
    assert (Hd : Z.div_eucl (Z.shiftl (Zpos m) 53) 4503599627370496 = (Zpos m~0, 0)).
    { rewrite Z.shiftl_mul_pow2 by lia. change (2 ^ 53) with (2 * 4503599627370496).
      pose proof (Z.div_eucl_eq (Zpos m * (2 * 4503599627370496)) 4503599627370496 ltac:(lia)) as Heq.
      pose proof (Z.mod_pos_bound (Zpos m * (2 * 4503599627370496)) 4503599627370496 ltac:(lia)) as Hb.
      unfold Z.modulo in Hb.
      destruct (Z.div_eucl (Zpos m * (2 * 4503599627370496)) 4503599627370496) as [q r].
      f_equal; lia. }
    rewrite Hd. cbn [new_location Z.even new_location_even Z.eqb].
    apply binary_round_aux_double; assumption.
Qed.

Lemma SF64sub_diag s m e :
  SF64sub (S754_finite s m e) (S754_finite s m e) = S754_zero false.
Proof.
  unfold SF64sub. cbn [SFsub]. rewrite Z.min_id, Z.sub_diag. reflexivity.
Qed.

Lemma Prim2SF_finite x :
  is_finite x = true ->
  match Prim2SF x with
  | S754_zero _ | S754_finite _ _ _ => True
  | _ => False
  end.
Proof.
  unfold is_finite, is_nan, is_infinity.
  rewrite negb_true_iff, orb_false_iff, negb_false_iff.
  rewrite !FloatAxioms.eqb_spec, abs_spec. intros [Hn Hi].
  destruct (Prim2SF x) as [s|s| |s m e]; try exact I.
  - discriminate Hi.
  - discriminate Hn.
Qed.

Lemma div_one (x : float) : (x / 1 = x)%float.
Proof.
  apply Prim2SF_inj. rewrite div_spec.
  change (Prim2SF 1) with SF_one.
  pose proof (Prim2SF_valid x) as Hv.
  destruct (Prim2SF x) as [[]|[]| |s m e]; try reflexivity.
  apply SF64div_one, Hv.
Qed.

Lemma zero_add_sub (x : float) :
  is_finite x = true ->
  let d := (x - (0 + x))%float in (d * d = 0)%float.
Proof.
  intros Hfin d. subst d. apply Prim2SF_inj.
  rewrite mul_spec, sub_spec, add_spec.
  apply Prim2SF_finite in Hfin.
  change (Prim2SF 0) with (S754_zero false).
  destruct (Prim2SF x) as [[]| | |s m e]; try contradiction; try reflexivity.
  unfold SF64add. cbn [SFadd]. rewrite SF64sub_diag. reflexivity.
Qed.

(** Adding 0 a second time changes nothing. *)
Lemma zero_add_twice (x : float) : (0 + (0 + x) = 0 + x)%float.
Proof.
  apply Prim2SF_inj. rewrite !add_spec.
  change (Prim2SF 0) with (S754_zero false).
  destruct (Prim2SF x) as [[]|[]| |s m e]; reflexivity.
Qed.

(** The sum of a one-element array. *)
Lemma numpy_sum_single (x : float) : numpy_sum [x] = (0 + x)%float.
Proof. apply zero_add_twice. Qed.

(** Eight times 0.1 add up pairwise to exactly 0.8, so their mean is 0.1
    and their deviation 0; added left to right they would not. *)
Example numpy_std_eight_tenths :
  numpy_sum (repeat 0x1.999999999999ap-4%float 8) = 0x1.999999999999ap-1%float
  /\ numpy_std (repeat 0x1.999999999999ap-4%float 8) 0 = 0%float
  /\ fold_left PrimFloat.add (repeat 0x1.999999999999ap-4%float 8) 0%float
     = 0x1.9999999999999p-1%float.
Proof. repeat split; reflexivity. Qed.

(** More than 128 elements are split near the middle. *)
Example numpy_sum_split :
  numpy_sum (repeat 1%float 300) = 300%float
  /\ pairwise_sum 300 (repeat 1%float 300)
     = (pairwise_sum 299 (repeat 1%float 144) + pairwise_sum 299 (repeat 1%float 156))%float.
Proof. split; reflexivity. Qed.

Lemma std_single (x : float) :
  is_finite x = true -> numpy_std [x] 0 = 0%float.
Proof.
  intros Hfin. unfold numpy_std, numpy_var, numpy_mean.
  cbn [map length]. rewrite !numpy_sum_single.
  change (float_of_int (Z.of_nat 1)) with 1%float.
  change (float_of_int (Z.max (Z.of_nat 1 - 0) 0)) with 1%float.
  rewrite !div_one.
  pose proof (zero_add_sub x Hfin) as Hd. cbv zeta in Hd. rewrite Hd.
  reflexivity.
Qed.

Lemma numpy_std_population (xs : list float) :
  numpy_std xs 0 = population_std xs.
Proof.
  unfold numpy_std, numpy_var, population_std. cbv zeta. f_equal.
  unfold numpy_mean. rewrite length_map, Z.sub_0_r, Z.max_l by lia.
  reflexivity.
Qed.

(** C7, as the code has it.  In a table the analysis returns, the [std]
    cell of a group is the population standard deviation of the group's
    elapsed values: the divisor is the group's size.  For a group of one
    record whose elapsed value is finite, the cell is exactly 0.  For a
    group of two records the cell is the square root of the sum of the
    two squared deviations over 2, not over 1. *)
Theorem C7_std_population nodes cores peak_flops peak_bytes text T :
  analysis nodes cores peak_flops peak_bytes text = Ok T ->
  let gs := groups (parse_columns text) in
  std T = map (fun g => population_std (map rec_elapsed (snd g))) gs
  /\ (forall (i : nat) (k : Z) (v : record),
       gs !! i = Some (k, [v]) -> is_finite (rec_elapsed v) = true ->
       std T !! i = Some 0%float)
  /\ (forall (i : nat) (k : Z) (v1 v2 : record),
       gs !! i = Some (k, [v1; v2]) ->
       let m := ((0 + (0 + rec_elapsed v1 + rec_elapsed v2)) / 2)%float in
       let d1 := (rec_elapsed v1 - m)%float in
       let d2 := (rec_elapsed v2 - m)%float in
       std T !! i = Some (PrimFloat.sqrt ((0 + (0 + d1 * d1 + d2 * d2)) / 2))).
Proof.
  intros H gs.
  apply analysis_rows in H as (rows & HF & _ & _ & _ & _ & ->).
  destruct (compute_derived_base (compute nodes cores peak_flops peak_bytes)
              (table_of_rows (parse_columns text) rows))
    as (_ & _ & _ & _ & _ & _ & _ & -> & _).
  cbn [table_of_rows std].
  assert (Hstd : map row_std rows
                 = map (fun g => population_std (map rec_elapsed (snd g))) gs).
  { apply rows_project; [|exact HF].
    intros [k vs] r Hr. apply group_row_ok in Hr as (v0 & vs' & -> & ->).
    cbn [row_std snd]. apply numpy_std_population. }
  split; [exact Hstd|]. split.
  - intros i k v Hi Hfin. rewrite Hstd, list_lookup_fmap, Hi.
    cbn [fmap option_fmap option_map snd map].
    rewrite <- numpy_std_population, (std_single _ Hfin). reflexivity.
  - intros i k v1 v2 Hi. cbv zeta. rewrite Hstd, list_lookup_fmap, Hi.
    reflexivity.
Qed.

Lemma C7_std_population_witness :
  exists T,
    analysis 2 3 None None spread_log = Ok T
    /\ std T = [1; 0]%float
    /\ std T !! 1%nat = Some 0%float
    /\ numpy_std [1; 3]%float 1 = PrimFloat.sqrt 2.
Proof.
  eexists. split; [reflexivity|].
  destruct (C7_std_population 2 3 None None spread_log _ eq_refl) as (H1 & H2 & _).
  split; [rewrite H1; reflexivity|].
  split; [|reflexivity].
  apply (H2 1%nat 5 (Record_ 1.5 10 120 60)); reflexivity.
Defined.

(** C7 as stated fails: the log has one record, so one group of one
    record, its elapsed value is infinite, and the [std] cell is not a
    number. *)
Lemma C7_infinite_elapsed_counterexample :
  exists T s,
    analysis 2 3 None None overflow_log = Ok T
    /\ map (fun g => length (snd g)) (groups (parse_columns overflow_log)) = [1%nat]
    /\ std T = [s]
    /\ is_nan s = true
    /\ (s =? 0)%float = false.
Proof.
  eexists. eexists. split; [reflexivity|]. split; [reflexivity|].
  split; [reflexivity|]. split; reflexivity.
Qed.

(** ** One row per run of equal step counts *)

Lemma zip_records_length e t f b :
  length e = length t -> length e = length f -> length e = length b ->
  length (zip_records e t f b) = length e.
Proof.
  revert t f b. induction e as [|x e IH]; intros [|y t] [|z f] [|u b];
    cbn [length zip_records]; try discriminate; try reflexivity.
  intros [= Ht] [= Hf] [= Hb]. rewrite IH; auto.
Qed.

Lemma check_lengths c :
  check_consistency c = Ok tt ->
  length (col_steps c) = length (col_elapsed c)
  /\ length (col_tasks c) = length (col_elapsed c)
  /\ length (col_flops c) = length (col_elapsed c)
  /\ length (col_bytes c) = length (col_elapsed c).
Proof.
  rewrite check_consistency_cases.
  destruct (same Nat.eqb (column_lengths c)) eqn:Hs; [|discriminate].
  intros _. apply same_nat_constant in Hs. unfold column_lengths in Hs.
  repeat split; apply Hs; cbn; auto 10.
Qed.

(** The keys that [group_by] sees in [groups] are the whole [steps]
    column once the lengths have been checked. *)
Lemma groups_keys c :
  check_consistency c = Ok tt ->
  map fst (combine (col_steps c)
             (zip_records (col_elapsed c) (col_tasks c) (col_flops c) (col_bytes c)))
  = col_steps c.
Proof.
  intros H. apply check_lengths in H as (Hs & Ht & Hf & Hb).
  apply fst_zip. rewrite zip_records_length by congruence. lia.
Qed.

(** C1.  Grouping is by adjacency.  The groups of [group_by], put end to
    end, are the zipped input, every value under its own key; no group is
    empty; two neighbouring groups never have the same key, so each group
    is a maximal run of equal keys; and there are as many groups as there
    are records whose key differs from the key just before (the first
    record included).  The keys 1, 1, 2, 1 give three groups, with keys
    1, 2, 1.  A table the analysis returns has one row per group: its
    [steps] column is the keys of the groups, and it has as many rows as
    there are records whose step count differs from the one before. *)
Theorem C1_group_by_adjacent_runs :
  (forall (V : Type) (keys : list Z) (values : list V),
      let gs := group_by Z.eqb keys values in
      ungroup gs = combine keys values
      /\ Forall (fun g => snd g <> []) gs
      /\ adjacent_differ (map fst gs)
      /\ length gs = run_starts None (map fst (combine keys values)))
  /\ (forall (V : Type) (a b c d : V),
         group_by Z.eqb [1; 1; 2; 1] [a; b; c; d]
         = [(1, [a; b]); (2, [c]); (1, [d])])
  /\ (forall nodes cores peak_flops peak_bytes text T,
         analysis nodes cores peak_flops peak_bytes text = Ok T ->
         steps T = map fst (groups (parse_columns text))
         /\ length (steps T) = run_starts None (col_steps (parse_columns text))).
Proof.
  assert (Hgroup : forall (V : Type) (keys : list Z) (values : list V),
      let gs := group_by Z.eqb keys values in
      ungroup gs = combine keys values
      /\ Forall (fun g => snd g <> []) gs
      /\ adjacent_differ (map fst gs)
      /\ length gs = run_starts None (map fst (combine keys values))).
  { intros V keys values gs. subst gs. rewrite group_by_collect.
    destruct (combine keys values) as [|[k v] l].
    - repeat split; constructor.
    - repeat split.
      + rewrite ungroup_collect. reflexivity.
      + apply collect_nonempty. discriminate.
      + apply collect_adjacent.
      + rewrite collect_length. cbn [map fst run_starts].
        rewrite decide_False by discriminate. reflexivity. }
  split; [exact Hgroup|]. split; [reflexivity|].
  intros nodes cores peak_flops peak_bytes text T H.
  pose proof (analysis_ok _ _ _ _ _ _ H) as (Hc & _).
  apply analysis_rows in H as (rows & HF & _ & _ & _ & _ & ->).
  destruct (compute_derived_base (compute nodes cores peak_flops peak_bytes)
              (table_of_rows (parse_columns text) rows))
    as (_ & _ & -> & _).
  cbn [table_of_rows steps].
  assert (Hk : map row_k rows = map fst (groups (parse_columns text))).
  { apply rows_project; [|exact HF].
    intros [k vs] r Hr. apply group_row_ok in Hr as (v0 & vs' & -> & ->).
    reflexivity. }
  split; [exact Hk|].
  rewrite Hk, length_map. unfold groups.
  destruct (Hgroup _ (col_steps (parse_columns text))
              (zip_records (col_elapsed (parse_columns text))
                 (col_tasks (parse_columns text)) (col_flops (parse_columns text))
                 (col_bytes (parse_columns text)))) as (_ & _ & _ & ->).
  rewrite (groups_keys _ Hc). reflexivity.
Qed.

Lemma C1_group_by_adjacent_runs_witness :
  exists T,
    analysis 2 3 None None interleaved_log = Ok T
    /\ steps T = [1; 2; 1]
    /\ reps T = [2; 1; 1].
Proof.
  eexists. split; [reflexivity|].
  destruct C1_group_by_adjacent_runs as (_ & _ & H).
  destruct (H 2 3 None None interleaved_log _ eq_refl) as [-> _].
  split; reflexivity.
Defined.

Lemma C6_groups_homogeneous_witness :
  (exists T,
     analysis 2 3 None None example_log = Ok T
     /\ analyze (fun _ => "") "run.log" 2 3 0.5 None None (world_of example_log)
        = write "run.csv" (csv_rows (fun _ => "") T)
            (World (files (world_of example_log)) [open_r "run.log"])
     /\ Forall2 (fun g t => head (map rec_tasks (snd g)) = Some t)
          [(4, [Record_ 1 8 100 50; Record_ 1.25 8 100 50; Record_ 0.75 8 100 50])]
          (tasks T)
     /\ Forall2 (fun g f => head (map rec_flops (snd g)) = Some f)
          [(4, [Record_ 1 8 100 50; Record_ 1.25 8 100 50; Record_ 0.75 8 100 50])]
          (flops T)
     /\ Forall2 (fun g b => head (map rec_bytes (snd g)) = Some b)
          [(4, [Record_ 1 8 100 50; Record_ 1.25 8 100 50; Record_ 0.75 8 100 50])]
          (bytes T))
  /\ analyze (fun _ => "") "run.log" 2 3 0.5 None None (world_of divergent_log)
     = (Raise (AssertionError 84),
        World (files (world_of divergent_log)) [open_r "run.log"]).
Proof.
  split.
  - destruct (C6_groups_homogeneous (fun _ => "") "run.log" 2 3 0.5%float None None
                (world_of example_log) example_log eq_refl) as (Hrow & _ & H).
    destruct H as (Hok & _).
    { apply int64_captures_check. reflexivity. }
    { reflexivity. }
    destruct Hok as (T & HT & Hrun).
    { discriminate. }
    { apply Forall_cons. split; [|apply Forall_nil_2].
      repeat split; apply same_Z_constant; reflexivity. }
    { reflexivity. }
    { reflexivity. }
    exists T. split; [exact HT|]. split; [exact Hrun|].
    destruct (Hrow T HT) as (_ & Ht & Hf & Hb). auto.
  - destruct (C6_groups_homogeneous (fun _ => "") "run.log" 2 3 0.5%float None None
                (world_of divergent_log) divergent_log eq_refl) as (_ & _ & H).
    destruct H as (_ & H84 & _).
    { apply int64_captures_check. reflexivity. }
    { reflexivity. }
    apply H84. apply Exists_cons_hd. intros Hf.
    apply same_Z_constant in Hf. discriminate Hf.
Defined.

Lemma C10_zero_peak_supplied_but_false_witness :
  exists T,
    analysis 2 3 (Some 0%float) None example_log = Ok T
    /\ map fst (derived T) = ["time_per_task"].
Proof.
  eexists. split; [reflexivity|].
  destruct (C10_zero_peak_supplied_but_false (fun _ => "") [] None 2 3 0.5%float
              1%float (world_of example_log) example_log) as (_ & _ & _ & _ & H).
  apply (H _ (or_introl eq_refl)).
Defined.

(** * Further properties of the script *)

(** ** [same] *)

(** X1.  [same] accepts exactly the sequences whose members are all
    equal, the empty sequence among them; so on the column lengths and on
    an integer column. *)
Theorem X1_same_iff_all_equal :
  (forall l : list Z, same Z.eqb l = true <-> constant l)
  /\ (forall l : list nat, same Nat.eqb l = true <-> constant l)
  /\ same Z.eqb [] = true.
Proof.
  split; [|split; [|reflexivity]]; intros l.
  - apply same_constant, Z.eqb_eq.
  - apply same_constant, Nat.eqb_eq.
Qed.

(** ** [group_by] at its edges *)

Lemma collect_not_nil {V} (l : list (Z * V)) key group : collect key group l <> [].
Proof.
  destruct (collect_head l key group) as (g & gs & ->). discriminate.
Qed.

Lemma group_by_nil {V} (keys : list Z) (values : list V) :
  group_by Z.eqb keys values = [] <-> keys = [] \/ values = [].
Proof.
  rewrite group_by_collect. split.
  - destruct keys as [|k keys]; [auto|].
    destruct values as [|v values]; [auto|].
    cbn [combine]. intros H. contradiction (collect_not_nil _ _ _ H).
  - intros [-> | ->]; [reflexivity|]. destruct keys; reflexivity.
Qed.

(** X2.  [group_by] yields no group exactly when it is given no key or no
    value, and then only: with a key and a value to start from, the first
    group it yields is under the first key and begins with the first
    value. *)
Theorem X2_group_by_empty {V} (keys : list Z) (values : list V) :
  (group_by Z.eqb keys values = [] <-> keys = [] \/ values = [])
  /\ (forall k keys' v values',
        keys = k :: keys' -> values = v :: values' ->
        exists vs gs, group_by Z.eqb keys values = (k, v :: vs) :: gs).
Proof.
  split; [apply group_by_nil|].
  intros k keys' v values' -> ->. rewrite group_by_collect. cbn [combine].
  generalize (combine keys' values'). intros l.
  assert (H : forall group, exists vs gs,
               collect k (v :: group) l = (k, v :: group ++ vs) :: gs).
  { induction l as [|[k' v'] l IH]; intros group; cbn [collect].
    - exists [], []. rewrite app_nil_r. reflexivity.
    - destruct (Z.eqb_spec k' k) as [->|_].
      + cbn [app]. destruct (IH (group ++ [v'])) as (vs & gs & ->).
        exists (v' :: vs), gs. rewrite <- app_assoc. reflexivity.
      + exists [], (collect k' [v'] l). rewrite app_nil_r. reflexivity. }
  destruct (H []) as (vs & gs & ->). eauto.
Qed.

Lemma combine_firstn_min {A B} (l : list A) (k : list B) :
  combine (firstn (Nat.min (length l) (length k)) l)
          (firstn (Nat.min (length l) (length k)) k)
  = combine l k.
Proof.
  revert k. induction l as [|a l IH]; intros [|b k]; cbn; try reflexivity.
  f_equal. apply IH.
Qed.

(** X3.  [group_by] reads its two arguments in step and stops at the end
    of the shorter one: what lies beyond is not grouped. *)
Theorem X3_group_by_truncates {V} (keys : list Z) (values : list V) :
  let n := Nat.min (length keys) (length values) in
  group_by Z.eqb keys values = group_by Z.eqb (firstn n keys) (firstn n values)
  /\ length (ungroup (group_by Z.eqb keys values)) = n.
Proof.
  intros n. subst n. split.
  - unfold group_by. rewrite combine_firstn_min. reflexivity.
  - rewrite group_by_collect.
    destruct (combine keys values) as [|[k v] l] eqn:Hc.
    + rewrite <- length_combine, Hc. reflexivity.
    + rewrite ungroup_collect, <- length_combine, Hc. reflexivity.
Qed.

Lemma collect_same_key {V} (l : list (Z * V)) key group :
  Forall (fun kv => fst kv = key) l ->
  collect key group l = [(key, group ++ map snd l)].
Proof.
  revert group. induction l as [|[k v] l IH]; intros group H; cbn [collect map snd].
  - rewrite app_nil_r. reflexivity.
  - apply Forall_cons in H as [Hk Hl]. cbn [fst] in Hk. subst k.
    rewrite Z.eqb_refl, IH by exact Hl. rewrite <- app_assoc. reflexivity.
Qed.

(** X4.  When every key is the same, [group_by] yields one group, under
    that key, holding all the values in their order. *)
Theorem X4_group_by_one_key {V} (k : Z) (keys : list Z) (values : list V) :
  Forall (fun k' => k' = k) keys ->
  length keys = length values ->
  values <> [] ->
  group_by Z.eqb keys values = [(k, values)].
Proof.
  intros Hk Hlen Hv. rewrite group_by_collect.
  destruct keys as [|k0 keys]; destruct values as [|v values];
    try discriminate; [contradiction Hv; reflexivity|].
  cbn [combine]. apply Forall_cons in Hk as [-> Hks].
  rewrite collect_same_key.
  - cbn [app]. do 3 f_equal. injection Hlen as Hlen.
    clear -Hlen. revert values Hlen.
    induction keys as [|a keys IH]; intros [|b values] Hlen;
      try discriminate; [reflexivity|].
    cbn. f_equal. apply IH. injection Hlen as Hlen. exact Hlen.
  - clear -Hks. revert values.
    induction Hks as [|a keys Ha _ IH]; intros [|b values]; cbn [combine];
      constructor; [exact Ha | apply IH].
Qed.

Lemma X4_group_by_one_key_witness :
  group_by Z.eqb [4; 4; 4] ["a"; "b"; "c"] = [(4, ["a"; "b"; "c"])].
Proof.
  apply X4_group_by_one_key; [repeat constructor | reflexivity | discriminate].
Defined.

Lemma collect_all_differ {V} (l : list (Z * V)) key group :
  adjacent_differ (key :: map fst l) ->
  collect key group l = (key, group) :: map (fun kv => (fst kv, [snd kv])) l.
Proof.
  revert key group. induction l as [|[k v] l IH]; intros key group H;
    cbn [collect map fst snd]; [reflexivity|].
  cbn [map fst adjacent_differ] in H. destruct H as [Hne H].
  destruct (Z.eqb_spec k key) as [->|_]; [contradiction Hne; reflexivity|].
  rewrite IH by exact H. reflexivity.
Qed.

Lemma adjacent_differ_combine {V} (keys : list Z) (values : list V) :
  adjacent_differ keys -> adjacent_differ (map fst (combine keys values)).
Proof.
  revert values. induction keys as [|k keys IH]; intros values H; [exact I|].
  destruct values as [|v values]; [exact I|].
  destruct keys as [|k' keys]; [exact I|].
  destruct values as [|v' values]; [exact I|].
  cbn [adjacent_differ] in H. destruct H as [Hne H].
  specialize (IH (v' :: values) H). cbn [combine map fst adjacent_differ] in *.
  split; assumption.
Qed.

(** X5.  When no key equals the key before it, [group_by] yields one
    group of one value for every pair. *)
Theorem X5_group_by_all_change {V} (keys : list Z) (values : list V) :
  adjacent_differ keys ->
  group_by Z.eqb keys values
  = map (fun kv => (fst kv, [snd kv])) (combine keys values).
Proof.
  intros H. rewrite group_by_collect.
  pose proof (adjacent_differ_combine keys values H) as Hc.
  destruct (combine keys values) as [|[k v] l]; [reflexivity|].
  apply collect_all_differ. exact Hc.
Qed.

Lemma X5_group_by_all_change_witness :
  group_by Z.eqb [1; 2; 1] ["a"; "b"; "c"] = [(1, ["a"]); (2, ["b"]); (1, ["c"])].
Proof.
  apply (X5_group_by_all_change [1; 2; 1] ["a"; "b"; "c"]).
  cbn. repeat split; discriminate.
Defined.

(** ** The outcomes of an analysis *)

(** The conversions of [nodes] and [cores] pass or raise
    [OverflowError]. *)
Lemma converted_cases {A} nodes cores (a : A) :
  (python_float nodes;; python_float cores;; Ok a) = Ok a
  \/ (python_float nodes;; python_float cores;; Ok a) = Raise OverflowError.
Proof.
  destruct (python_float_cases nodes) as [-> | ->]; [|auto].
  destruct (python_float_cases cores) as [-> | ->]; auto.
Qed.


Section Outcomes.
Variable format_e : float -> string.

End Outcomes.


Lemma rows_nil_groups gs rows :
  Forall2 (fun g r => group_row g = Ok r) gs rows -> rows = [] <-> gs = [].
Proof.
  intros HF. split; intros ->; inversion HF; reflexivity.
Qed.

Lemma groups_nil c :
  constant (column_lengths c) ->
  groups c = [] <-> column_lengths c = [0; 0; 0; 0; 0; 0; 0]%nat.
Proof.
  intros Hl. unfold groups. rewrite group_by_nil. unfold column_lengths in *.
  assert (Hall : length (col_iterations c) = length (col_elapsed c)
                 /\ length (col_steps c) = length (col_elapsed c)
                 /\ length (col_tasks c) = length (col_elapsed c)
                 /\ length (col_flops c) = length (col_elapsed c)
                 /\ length (col_bytes c) = length (col_elapsed c)
                 /\ length (col_width c) = length (col_elapsed c))
    by (repeat split; apply Hl; cbn; auto 10).
  destruct Hall as (Hi & Hs & Ht & Hf & Hb & Hw).
  rewrite Hi, Hs, Ht, Hf, Hb, Hw. split.
  - intros H.
    assert (H0 : length (col_elapsed c) = 0%nat).
    { destruct H as [H|H].
      - rewrite <- Hs, H. reflexivity.
      - rewrite <- (zip_records_length (col_elapsed c) (col_tasks c)
                      (col_flops c) (col_bytes c)), H by congruence.
        reflexivity. }
    rewrite H0. reflexivity.
  - intros [= He]. left. apply length_zero_iff_nil. congruence.
Qed.

(** X7.  The unpacking error of line 77 is raised for the logs in which
    no pattern matches, and for no other log. *)
Theorem X7_unpack_error_iff_no_record nodes cores peak_flops peak_bytes text :
  analysis nodes cores peak_flops peak_bytes text = Raise (ValueError 77)
  <-> column_lengths (parse_columns text) = [0; 0; 0; 0; 0; 0; 0]%nat.
Proof.
  destruct (analysis_cascade text) as (rows & HF & Ha).
  rewrite (Ha nodes cores peak_flops peak_bytes). clear Ha.
  set (c := parse_columns text) in *. split.
  - destruct (same Nat.eqb (column_lengths c)) eqn:Hl; [|discriminate].
    apply same_nat_constant in Hl. cbn [negb].
    destruct (negb (same Z.eqb (col_iterations c))); [discriminate|].
    destruct (negb (same Z.eqb (col_width c))); [discriminate|].
    destruct (negb (forallb id (tasks_eq_steps_width c))); [discriminate|].
    destruct rows as [|r rows].
    + intros _. apply (groups_nil c Hl), (rows_nil_groups _ _ HF). reflexivity.
    + destruct (negb (forallb id (map row_same_tasks (r :: rows)))); [discriminate|].
      destruct (negb (forallb id (map row_same_flops (r :: rows)))); [discriminate|].
      destruct (negb (forallb id (map row_same_bytes (r :: rows)))); [discriminate|].
      match goal with
      | |- context [Ok ?a] => destruct (converted_cases nodes cores a) as [-> | ->]
      end; discriminate.
  - intros H0.
    assert (Hl : constant (column_lengths c)).
    { rewrite H0. intros x y Hx Hy. cbn in Hx, Hy.
      repeat (destruct Hx as [<-|Hx]); try contradiction;
        repeat (destruct Hy as [<-|Hy]); try contradiction; reflexivity. }
    assert (Hg : rows = [])
      by (apply (rows_nil_groups _ _ HF), (groups_nil c Hl), H0).
    subst rows. destruct c as [e i s t f b wd].
    unfold column_lengths in H0. cbn in H0.
    injection H0 as He Hi Hs Ht Hfl Hb Hw.
    apply length_zero_iff_nil in He, Hi, Hs, Ht, Hfl, Hb, Hw. subst.
    reflexivity.
Qed.

(** X8.  A log whose integers are all stored as int64 is accepted, that
    is the analysis returns a table, exactly when the seven columns have
    one length, [iterations] is constant, [width] is constant, every
    record's tasks is the int64 product of its steps and width, there is
    at least one record, every group agrees on flops and on bytes, and
    [nodes] and [cores] are within the floats. *)
Theorem X8_accepted_logs nodes cores peak_flops peak_bytes text :
  let c := parse_columns text in
  int64_captures c ->
  (exists T, analysis nodes cores peak_flops peak_bytes text = Ok T)
  <-> constant (column_lengths c)
      /\ constant (col_iterations c)
      /\ constant (col_width c)
      /\ tasks_match c
      /\ col_steps c <> []
      /\ Forall (fun g => constant (map rec_flops (snd g))) (groups c)
      /\ Forall (fun g => constant (map rec_bytes (snd g))) (groups c)
      /\ python_float nodes = Ok (float_of_int nodes)
      /\ python_float cores = Ok (float_of_int cores).
Proof.
  intros c _. destruct (analysis_cascade text) as (rows & HF & Ha).
  rewrite (Ha nodes cores peak_flops peak_bytes). clear Ha. fold c in HF |- *.
  pose proof (check_consistency_cases c) as Hc.
  destruct (rows_flags _ _ HF) as (_ & Hfl & Hby).
  rewrite <- same_nat_constant, <- !same_Z_constant, <- tasks_check_match.
  rewrite <- !forallb_same_constant, <- Hfl, <- Hby.
  destruct (same Nat.eqb (column_lengths c)) eqn:Hl;
    [|split; [intros [T [=]] | intros (? & _); discriminate]].
  destruct (same Z.eqb (col_iterations c));
    [|split; [intros [T [=]] | intros (_ & ? & _); discriminate]].
  destruct (same Z.eqb (col_width c));
    [|split; [intros [T [=]] | intros (_ & _ & ? & _); discriminate]].
  destruct (forallb id (tasks_eq_steps_width c));
    [|split; [intros [T [=]] | intros (_ & _ & _ & ? & _); discriminate]].
  cbn [negb] in Hc |- *. apply same_nat_constant in Hl.
  assert (Hs : col_steps c = [] <-> rows = []).
  { rewrite (rows_nil_groups _ _ HF). split.
    - intros Hn. unfold groups. apply group_by_nil. left. exact Hn.
    - intros Hg. apply (groups_nil c Hl) in Hg.
      injection Hg as _ _ H0 _ _ _ _. apply length_zero_iff_nil, H0. }
  destruct rows as [|r rows].
  - split; [intros [T [=]] | intros (_ & _ & _ & _ & Hn & _)].
    contradiction Hn. apply Hs. reflexivity.
  - rewrite (checked_same_tasks _ _ Hc HF). cbn [negb].
    destruct (forallb id (map row_same_flops (r :: rows)));
      [|split; [intros [T [=]] | intros (_ & _ & _ & _ & _ & ? & _); discriminate]].
    destruct (forallb id (map row_same_bytes (r :: rows)));
      [|split; [intros [T [=]] | intros (_ & _ & _ & _ & _ & _ & ? & _); discriminate]].
    cbn [negb].
    destruct (python_float_cases nodes) as [Hn|Hn]; rewrite Hn;
      cbn [mbind result_bind rbind];
      [|split; [intros [T [=]]
               | intros (_ & _ & _ & _ & _ & _ & _ & ? & _); discriminate]].
    destruct (python_float_cases cores) as [Hcs|Hcs]; rewrite Hcs;
      cbn [mbind result_bind rbind];
      [|split; [intros [T [=]]
               | intros (_ & _ & _ & _ & _ & _ & _ & _ & ?); discriminate]].
    split; [|eauto]. intros _. repeat split; try reflexivity.
    intros Hnil. apply Hs in Hnil. discriminate Hnil.
Qed.

Lemma X8_accepted_logs_witness :
  int64_captures (parse_columns example_log)
  /\ exists T, analysis 2 3 None None example_log = Ok T.
Proof.
  assert (Hd : int64_captures (parse_columns example_log)).
  { apply int64_captures_check. reflexivity. }
  split; [exact Hd|].
  apply (X8_accepted_logs 2 3 None None example_log Hd).
  split; [apply same_nat_constant; reflexivity|].
  split; [apply same_Z_constant; reflexivity|].
  split; [apply same_Z_constant; reflexivity|].
  split; [apply tasks_check_match; reflexivity|].
  split; [discriminate|].
  split; [apply forallb_same_constant; reflexivity|].
  split; [apply forallb_same_constant; reflexivity|].
  split; reflexivity.
Defined.

(** X9.  On a log whose integers are all stored as int64, and for
    parameters [nodes] and [cores] within the floats, the parameters and
    the two peaks decide neither whether the log is accepted nor the
    exception raised for it, and they do not enter the nine columns of the
    table before the derived ones. *)
Theorem X9_statistics_ignore_parameters
  nodes cores peak_flops peak_bytes nodes' cores' peak_flops' peak_bytes' text :
  int64_captures (parse_columns text) ->
  python_float nodes = Ok (float_of_int nodes) ->
  python_float cores = Ok (float_of_int cores) ->
  python_float nodes' = Ok (float_of_int nodes') ->
  python_float cores' = Ok (float_of_int cores') ->
  match analysis nodes cores peak_flops peak_bytes text,
        analysis nodes' cores' peak_flops' peak_bytes' text with
  | Ok T, Ok T' =>
      elapsed T = elapsed T' /\ iterations T = iterations T' /\ steps T = steps T'
      /\ tasks T = tasks T' /\ flops T = flops T' /\ bytes T = bytes T'
      /\ width T = width T' /\ std T = std T' /\ reps T = reps T'
  | Raise e, Raise e' => e = e'
  | _, _ => False
  end.
Proof.
  intros _ Hn Hcs Hn' Hcs'.
  destruct (analysis_cascade text) as (rows & _ & Ha). rewrite !Ha. clear Ha.
  set (c := parse_columns text).
  destruct (negb (same Nat.eqb (column_lengths c))); [reflexivity|].
  destruct (negb (same Z.eqb (col_iterations c))); [reflexivity|].
  destruct (negb (same Z.eqb (col_width c))); [reflexivity|].
  destruct (negb (forallb id (tasks_eq_steps_width c))); [reflexivity|].
  destruct rows as [|r rows]; [reflexivity|].
  destruct (negb (forallb id (map row_same_tasks (r :: rows)))); [reflexivity|].
  destruct (negb (forallb id (map row_same_flops (r :: rows)))); [reflexivity|].
  destruct (negb (forallb id (map row_same_bytes (r :: rows)))); [reflexivity|].
  rewrite Hn, Hcs, Hn', Hcs'. cbn [mbind result_bind rbind].
  destruct (compute_derived_base (compute nodes cores peak_flops peak_bytes)
              (table_of_rows c (r :: rows)))
    as (-> & -> & -> & -> & -> & -> & -> & -> & ->).
  destruct (compute_derived_base (compute nodes' cores' peak_flops' peak_bytes')
              (table_of_rows c (r :: rows)))
    as (-> & -> & -> & -> & -> & -> & -> & -> & ->).
  repeat split.
Qed.

Lemma X9_statistics_ignore_parameters_witness :
  match analysis 2 3 None None example_log,
        analysis 5 7 (Some 4%float) None example_log with
  | Ok T, Ok T' =>
      elapsed T = elapsed T' /\ iterations T = iterations T' /\ steps T = steps T'
      /\ tasks T = tasks T' /\ flops T = flops T' /\ bytes T = bytes T'
      /\ width T = width T' /\ std T = std T' /\ reps T = reps T'
  | Raise e, Raise e' => e = e'
  | _, _ => False
  end.
Proof.
  apply (X9_statistics_ignore_parameters 2 3 None None 5 7 (Some 4%float) None
           example_log); [apply int64_captures_check|..]; reflexivity.
Defined.

(** ** The rows of a returned table *)

Lemma analysis_group_columns nodes cores peak_flops peak_bytes text T :
  analysis nodes cores peak_flops peak_bytes text = Ok T ->
  let c := parse_columns text in
  let gs := groups c in
  steps T = map fst gs
  /\ elapsed T = map (fun g => numpy_mean (map rec_elapsed (snd g))) gs
  /\ reps T = map (fun g => Z.of_nat (length (snd g))) gs
  /\ iterations T = numpy_resize (col_iterations c) (length gs)
  /\ width T = numpy_resize (col_width c) (length gs).
Proof.
  intros H c gs.
  apply analysis_rows in H as (rows & HF & _ & _ & _ & _ & ->).
  destruct (compute_derived_base (compute nodes cores peak_flops peak_bytes)
              (table_of_rows (parse_columns text) rows))
    as (-> & -> & -> & _ & _ & _ & -> & _ & ->).
  cbn [table_of_rows steps elapsed reps iterations width].
  rewrite <- (Forall2_length _ _ _ HF).
  repeat split; try (apply rows_project; [|exact HF]);
    intros [k vs] r Hr; apply group_row_ok in Hr as (v0 & vs' & -> & ->);
    reflexivity.
Qed.

(** X10.  In a returned table no row has the step count of the row before
    it: equal step counts that are neighbours in the log are always merged
    into one row. *)
Theorem X10_rows_change_steps nodes cores peak_flops peak_bytes text T :
  analysis nodes cores peak_flops peak_bytes text = Ok T ->
  adjacent_differ (steps T).
Proof.
  intros H. destruct (analysis_group_columns _ _ _ _ _ _ H) as (-> & _).
  unfold groups. rewrite group_by_collect.
  destruct (combine _ _) as [|[k v] l]; [exact I | apply collect_adjacent].
Qed.

Lemma X10_rows_change_steps_witness :
  exists T, analysis 2 3 None None interleaved_log = Ok T
            /\ adjacent_differ (steps T).
Proof.
  eexists. split; [reflexivity|].
  apply (X10_rows_change_steps 2 3 None None interleaved_log). reflexivity.
Defined.

Lemma sum_group_lengths {V} (gs : list (Z * list V)) :
  fold_right Z.add 0 (map (fun g => Z.of_nat (length (snd g))) gs)
  = Z.of_nat (length (ungroup gs)).
Proof.
  unfold ungroup. induction gs as [|g gs IH]; [reflexivity|].
  cbn [map fold_right flat_map]. rewrite IH, length_app, length_map. lia.
Qed.

(** X11.  The repetition counts of a returned table add up to the number
    of records of the log: every record is counted in exactly one row. *)
Theorem X11_reps_count_every_record nodes cores peak_flops peak_bytes text T :
  analysis nodes cores peak_flops peak_bytes text = Ok T ->
  fold_right Z.add 0 (reps T)
  = Z.of_nat (length (col_elapsed (parse_columns text)))
  /\ Forall (fun n => 1 <= n) (reps T).
Proof.
  intros H. pose proof (analysis_ok _ _ _ _ _ _ H) as (Hc & _).
  destruct (analysis_group_columns _ _ _ _ _ _ H) as (_ & _ & -> & _).
  split.
  - rewrite sum_group_lengths. unfold groups. rewrite ungroup_group_by.
    apply check_lengths in Hc as (Hs & Ht & Hf & Hb).
    rewrite length_combine, zip_records_length by congruence. lia.
  - apply Forall_map. eapply Forall_impl; [apply groups_nonempty|].
    intros [k vs] Hne. cbn [snd] in *. destruct vs; [contradiction Hne; reflexivity|].
    cbn [length]. lia.
Qed.

Lemma X11_reps_count_every_record_witness :
  exists T, analysis 2 3 None None interleaved_log = Ok T
            /\ fold_right Z.add 0 (reps T) = 4.
Proof.
  eexists. split; [reflexivity|].
  destruct (X11_reps_count_every_record 2 3 None None interleaved_log _ eq_refl)
    as [-> _].
  reflexivity.
Defined.

Lemma firstn_all_equal (x : Z) (l : list Z) (n : nat) :
  (forall y, In y l -> y = x) -> (n <= length l)%nat -> firstn n l = repeat x n.
Proof.
  revert l. induction n as [|n IH]; intros l Hl Hn; [reflexivity|].
  destruct l as [|y l]; [cbn in Hn; lia|].
  cbn [firstn repeat]. rewrite (Hl y) by (left; reflexivity).
  f_equal. apply IH; [intros z Hz; apply Hl; right; exact Hz | cbn in Hn; lia].
Qed.

Lemma concat_repeat_all_equal (x : Z) (a : list Z) (m : nat) :
  (forall y, In y a -> y = x) ->
  (forall y, In y (concat (repeat a m)) -> y = x)
  /\ length (concat (repeat a m)) = (m * length a)%nat.
Proof.
  intros Ha. induction m as [|m [IH1 IH2]]; cbn [repeat concat].
  - split; [intros y [] | reflexivity].
  - split.
    + intros y Hy. apply in_app_or in Hy as [Hy|Hy]; [apply Ha, Hy | apply IH1, Hy].
    + rewrite length_app, IH2. lia.
Qed.

(** [numpy.resize] of a constant, non-empty array is that constant,
    repeated. *)
Lemma numpy_resize_constant (a : list Z) (x : Z) (n : nat) :
  head a = Some x -> constant a -> numpy_resize a n = repeat x n.
Proof.
  intros Hh Hc. destruct a as [|y a]; [discriminate|]. injection Hh as ->.
  unfold numpy_resize.
  destruct (concat_repeat_all_equal x (x :: a) n) as [H1 H2].
  { intros y Hy. apply Hc; [exact Hy | left; reflexivity]. }
  apply firstn_all_equal; [exact H1|]. rewrite H2. cbn [length]. nia.
Qed.

(** X12.  In a returned table the columns [iterations] and [width] hold
    one value each, the value of the first record of the log, once for
    every row. *)
Theorem X12_iterations_width_broadcast nodes cores peak_flops peak_bytes text T :
  analysis nodes cores peak_flops peak_bytes text = Ok T ->
  exists i0 w0,
    head (col_iterations (parse_columns text)) = Some i0
    /\ head (col_width (parse_columns text)) = Some w0
    /\ iterations T = repeat i0 (length (steps T))
    /\ width T = repeat w0 (length (steps T)).
Proof.
  intros H. pose proof (analysis_ok _ _ _ _ _ _ H) as (Hc & _).
  destruct (analysis_group_columns _ _ _ _ _ _ H) as (-> & _ & _ & -> & ->).
  apply analysis_rows in H as (rows & HF & Hne & _).
  set (c := parse_columns text) in *.
  assert (Hs : col_steps c <> []).
  { intros Hs. apply Hne, (rows_nil_groups _ _ HF). unfold groups.
    apply group_by_nil. left. exact Hs. }
  rewrite check_consistency_cases in Hc.
  destruct (same Nat.eqb (column_lengths c)) eqn:Hl; [|discriminate].
  destruct (same Z.eqb (col_iterations c)) eqn:Hi; [|discriminate].
  destruct (same Z.eqb (col_width c)) eqn:Hw; [|discriminate].
  apply same_nat_constant in Hl. apply same_Z_constant in Hi, Hw.
  assert (Hli : length (col_iterations c) = length (col_steps c))
    by (apply Hl; unfold column_lengths; cbn; auto 10).
  assert (Hlw : length (col_width c) = length (col_steps c))
    by (apply Hl; unfold column_lengths; cbn; auto 10).
  destruct (col_steps c) as [|s0 ss]; [contradiction Hs; reflexivity|].
  destruct (col_iterations c) as [|i0 is_] eqn:Ei; [discriminate Hli|].
  destruct (col_width c) as [|w0 ws] eqn:Ew; [discriminate Hlw|].
  exists i0, w0. rewrite length_map.
  repeat split; apply numpy_resize_constant; try reflexivity; assumption.
Qed.

Lemma X12_iterations_width_broadcast_witness :
  exists T, analysis 2 3 None None interleaved_log = Ok T
            /\ iterations T = [10; 10; 10] /\ width T = [2; 2; 2].
Proof.
  eexists. split; [reflexivity|].
  destruct (X12_iterations_width_broadcast 2 3 None None interleaved_log _ eq_refl)
    as (i0 & w0 & Hi & Hw & -> & ->).
  injection Hi as <-. injection Hw as <-. split; reflexivity.
Defined.

Lemma zero_add (x : float) : x <> neg_zero -> (0 + x = x)%float.
Proof.
  intros Hx. apply Prim2SF_inj. rewrite add_spec.
  change (Prim2SF 0) with (S754_zero false).
  destruct (Prim2SF x) as [[]| | |s m e] eqn:Hp; try reflexivity.
  contradiction Hx. rewrite <- (SF2Prim_Prim2SF x), Hp. reflexivity.
Qed.

Lemma numpy_mean_single (x : float) : x <> neg_zero -> numpy_mean [x] = x.
Proof.
  intros Hx. unfold numpy_mean. rewrite numpy_sum_single. cbn [length].
  change (float_of_int (Z.of_nat 1)) with 1%float.
  rewrite div_one. apply zero_add, Hx.
Qed.

(** X13.  A run that was not repeated keeps its own figures: the row of a
    group of one record has [reps] 1, the record's step count, and, unless
    the record's elapsed time is the negative zero, exactly the record's
    elapsed time. *)
Theorem X13_single_record_row nodes cores peak_flops peak_bytes text T :
  analysis nodes cores peak_flops peak_bytes text = Ok T ->
  forall (i : nat) (k : Z) (v : record),
    groups (parse_columns text) !! i = Some (k, [v]) ->
    reps T !! i = Some 1
    /\ steps T !! i = Some k
    /\ (rec_elapsed v <> neg_zero -> elapsed T !! i = Some (rec_elapsed v)).
Proof.
  intros H i k v Hi.
  destruct (analysis_group_columns _ _ _ _ _ _ H) as (-> & -> & -> & _).
  rewrite !list_lookup_fmap, Hi. cbn [fmap option_fmap option_map fst snd map length].
  repeat split. intros Hx. rewrite (numpy_mean_single _ Hx). reflexivity.
Qed.

Lemma X13_single_record_row_witness :
  exists T, analysis 2 3 None None interleaved_log = Ok T
            /\ reps T !! 1%nat = Some 1
            /\ elapsed T !! 1%nat = Some 2%float.
Proof.
  eexists. split; [reflexivity|].
  destruct (X13_single_record_row 2 3 None None interleaved_log _ eq_refl
              1%nat 2 (Record_ 2 4 200 90) eq_refl) as (Hr & _ & He).
  split; [exact Hr|]. apply He. intros Heq.
  apply (f_equal (fun x => (x =? 2)%float)) in Heq. discriminate Heq.
Defined.

(** ** Lines and fields *)

Lemma parse_columns_app (l1 l2 : list line) :
  parse_columns (l1 ++ l2)
  = {| col_elapsed := col_elapsed (parse_columns l1) ++ col_elapsed (parse_columns l2);
       col_iterations := col_iterations (parse_columns l1) ++ col_iterations (parse_columns l2);
       col_steps := col_steps (parse_columns l1) ++ col_steps (parse_columns l2);
       col_tasks := col_tasks (parse_columns l1) ++ col_tasks (parse_columns l2);
       col_flops := col_flops (parse_columns l1) ++ col_flops (parse_columns l2);
       col_bytes := col_bytes (parse_columns l1) ++ col_bytes (parse_columns l2);
       col_width := col_width (parse_columns l1) ++ col_width (parse_columns l2) |}.
Proof.
  unfold parse_columns, finditer. cbn [col_elapsed col_iterations col_steps
    col_tasks col_flops col_bytes col_width].
  rewrite !omap_app. reflexivity.
Qed.

(** X14.  The analysis reads a log as seven independent sequences: a line
    that matches no pattern can be inserted anywhere, and two neighbouring
    lines of different fields can be exchanged, without changing the
    result.  Records are assembled by position within each field, not by
    the neighbourhood of their lines. *)
Theorem X14_lines_of_different_fields_commute
  nodes cores peak_flops peak_bytes (l1 l2 : list line) :
  (forall s, analysis nodes cores peak_flops peak_bytes (l1 ++ Other s :: l2)
             = analysis nodes cores peak_flops peak_bytes (l1 ++ l2))
  /\ (forall a b, field a <> field b ->
        analysis nodes cores peak_flops peak_bytes (l1 ++ a :: b :: l2)
        = analysis nodes cores peak_flops peak_bytes (l1 ++ b :: a :: l2)).
Proof.
  split.
  - intros s. unfold analysis.
    rewrite (parse_columns_app l1 (Other s :: l2)), (parse_columns_app l1 l2).
    reflexivity.
  - intros a b Hab. unfold analysis.
    rewrite (parse_columns_app l1 (a :: b :: l2)), (parse_columns_app l1 (b :: a :: l2)).
    destruct a, b; try reflexivity; contradiction Hab; reflexivity.
Qed.

Lemma X14_lines_of_different_fields_commute_witness :
  analysis 2 3 None None
    ([Elapsed_Time 1; Iterations 10] ++ Time_Steps 4 :: Total_Tasks 8
       :: [Total_FLOPs 100; Total_Bytes 50; Max_Width 2])
  = analysis 2 3 None None
      ([Elapsed_Time 1; Iterations 10] ++ Total_Tasks 8 :: Time_Steps 4
         :: [Total_FLOPs 100; Total_Bytes 50; Max_Width 2]).
Proof.
  destruct (X14_lines_of_different_fields_commute 2 3 None None
              [Elapsed_Time 1; Iterations 10]
              [Total_FLOPs 100; Total_Bytes 50; Max_Width 2]) as [_ H].
  apply H. discriminate.
Defined.

(** ** What [analyze] and [driver] do to the files *)

Section FileFacts.
Variable format_e : float -> string.

(** [analyze] returns, having written the CSV, or raises, having only
    opened the input. *)
Lemma analyze_cases filename nodes cores threshold peak_flops peak_bytes w :
  let run := analyze format_e filename nodes cores threshold peak_flops peak_bytes w in
  (exists rows,
      run = (Ok tt, World (<[out_path filename := Csv rows]> (files w))
                          (calls w ++ [open_r filename; open_w (out_path filename)]))
      /\ files w !! filename <> None)
  \/ (exists e, run = (Raise e, World (files w) (calls w ++ [open_r filename]))).
Proof.
  cbv zeta. rewrite analyze_content. unfold write, opened.
  destruct (files w !! filename) as [c|]; [|right; eauto].
  destruct (captures c) as [text|e]; [|right; eauto].
  destruct (analysis nodes cores peak_flops peak_bytes text) as [T|e].
  - left. eexists. cbn [calls files]. rewrite <- app_assoc. split; [reflexivity|].
    discriminate.
  - right. eauto.
Qed.

(** X15.  [analyze] changes at most one file, the one at the input path
    with its extension replaced by [.csv]: every other path holds what it
    held.  When it returns, that file is a CSV and the calls made are the
    opening of the input and of the output; when it raises, no file has
    changed and only the input was opened. *)
Theorem X15_analyze_touches_only_output
  filename nodes cores threshold peak_flops peak_bytes (w : world) :
  let run := analyze format_e filename nodes cores threshold peak_flops peak_bytes w in
  (forall p, p <> out_path filename -> files (snd run) !! p = files w !! p)
  /\ (fst run = Ok tt ->
      (exists rows, files (snd run) !! out_path filename = Some (Csv rows))
      /\ calls (snd run) = calls w ++ [open_r filename; open_w (out_path filename)])
  /\ (forall e, fst run = Raise e ->
      files (snd run) = files w /\ calls (snd run) = calls w ++ [open_r filename]).
Proof.
  intros run. subst run.
  destruct (analyze_cases filename nodes cores threshold peak_flops peak_bytes w)
    as [(rows & -> & _)|(e & ->)]; cbn [fst snd files calls].
  - split; [|split].
    + intros p Hp. apply lookup_insert_ne. congruence.
    + intros _. split; [exists rows; apply lookup_insert_eq | reflexivity].
    + discriminate.
  - split; [|split]; [reflexivity | discriminate | auto].
Qed.

Lemma analyze_all_app inputs1 inputs2 nodes cores threshold peak_flops peak_bytes w :
  analyze_all format_e (inputs1 ++ inputs2) nodes cores threshold peak_flops peak_bytes w
  = match analyze_all format_e inputs1 nodes cores threshold peak_flops peak_bytes w with
    | (Ok _, w1) =>
        analyze_all format_e inputs2 nodes cores threshold peak_flops peak_bytes w1
    | (Raise e, w1) => (Raise e, w1)
    end.
Proof.
  revert w. induction inputs1 as [|f inputs1 IH]; intros w; [reflexivity|].
  cbn [app analyze_all]. unfold mbind, io_bind.
  destruct (analyze format_e f nodes cores threshold peak_flops peak_bytes w)
    as [[[]|e] w1]; [apply IH | reflexivity].
Qed.

(** X16.  [driver] stops at the first input that fails: when the inputs
    before it succeed and it raises, the run raises the same exception,
    the inputs after it are never opened, and the files are as the
    successful inputs left them, their CSV files included. *)
Theorem X16_driver_stops_at_first_failure
  before filename after summary nodes cores threshold peak_flops peak_bytes
  (w w1 w2 : world) e :
  is_not_None peak_flops && is_not_None peak_bytes = false ->
  driver format_e before summary nodes cores threshold peak_flops peak_bytes w
  = (Ok tt, w1) ->
  analyze format_e filename nodes cores threshold peak_flops peak_bytes w1
  = (Raise e, w2) ->
  driver format_e (before ++ filename :: after) summary nodes cores threshold
    peak_flops peak_bytes w
  = (Raise e, w2)
  /\ files w2 = files w1
  /\ calls w2 = calls w1 ++ [open_r filename].
Proof.
  unfold driver. intros -> Hb Hf. rewrite analyze_all_app, Hb.
  cbn [analyze_all]. unfold mbind at 1, io_bind at 1. rewrite Hf.
  split; [reflexivity|].
  destruct (analyze_cases filename nodes cores threshold peak_flops peak_bytes w1)
    as [(rows & Hr & _)|(e' & Hr)]; rewrite Hf in Hr.
  - discriminate Hr.
  - injection Hr as _ ->. split; reflexivity.
Qed.
End FileFacts.

Lemma X16_driver_stops_at_first_failure_witness :
  driver (fun _ => "") (["a.log"] ++ "b.log" :: ["a.log"]) None 2 3 0.5 None None
    two_logs
  = (Raise (AssertionError 74),
     World (<["a.csv" := Csv (csv_rows (fun _ => "")
                               (Table [1%float] [10] [4] [8] [100] [50] [2]
                                  [0x1.a20bd700c2c3ep-3%float] [3]
                                  [("time_per_task", [750%float])]))]>
              (files two_logs))
           [open_r "a.log"; open_w "a.csv"; open_r "b.log"]).
Proof.
  apply (X16_driver_stops_at_first_failure (fun _ => "") ["a.log"] "b.log" ["a.log"]
           None 2 3 0.5%float None None two_logs _ _ _ eq_refl eq_refl eq_refl).
Defined.

(** ** The shape of the CSV file *)

Lemma fold_min_lengths {A} (n : nat) (cols : list (list A)) :
  Forall (fun c => length c = n) cols ->
  fold_right Nat.min n (map (@length A) cols) = n.
Proof.
  induction 1 as [|c cols Hc _ IH]; cbn [map fold_right]; [reflexivity|].
  rewrite IH, Hc. apply Nat.min_id.
Qed.

(** The transposition of columns of one length. *)
Lemma zip_star_shape {A} (d : A) (n : nat) (cols : list (list A)) :
  cols <> [] ->
  Forall (fun c => length c = n) cols ->
  length (zip_star d cols) = n
  /\ Forall (fun r => length r = length cols) (zip_star d cols)
  /\ forall (i j : nat) (col : list A),
       (i < n)%nat -> cols !! j = Some col ->
       exists r, zip_star d cols !! i = Some r /\ r !! j = col !! i.
Proof.
  intros Hne Hall. destruct cols as [|c cols']; [contradiction Hne; reflexivity|].
  unfold zip_star. set (cols := c :: cols') in *.
  apply Forall_cons in Hall as Hcc. destruct Hcc as [Hc Hcs].
  rewrite Hc, (fold_min_lengths n cols' Hcs).
  split; [rewrite length_map, length_seq; reflexivity|]. split.
  - apply Forall_map, Forall_forall. intros i _. cbn. rewrite length_map. reflexivity.
  - intros i j col Hi Hj. eexists. split.
    + rewrite list_lookup_fmap, lookup_seq_lt by exact Hi. reflexivity.
    + cbn [Nat.add]. rewrite list_lookup_fmap, Hj. cbn.
      rewrite Forall_forall in Hall.
      assert (Hlen : length col = n)
        by (apply Hall; eapply list_elem_of_lookup_2, Hj).
      destruct (lookup_lt_is_Some_2 col i ltac:(lia)) as [x Hx].
      rewrite Hx. f_equal. apply nth_lookup_Some with (d := d) in Hx. exact Hx.
Qed.

Lemma numpy_resize_length (a : list Z) (n : nat) : length (numpy_resize a n) = n.
Proof.
  unfold numpy_resize. destruct a as [|x a]; [apply repeat_length|].
  rewrite length_firstn. apply Nat.min_l.
  destruct (concat_repeat_all_equal 0 [] n) as [_ _].
  { intros y []. }
  assert (H : forall m, length (concat (repeat (x :: a) m)) = (m * S (length a))%nat).
  { induction m as [|m IH]; cbn [repeat concat]; [reflexivity|].
    rewrite length_app, IH. cbn [length]. lia. }
  rewrite H. nia.
Qed.

Section CsvFacts.
Variable format_e : float -> string.

Lemma render_length (c : column) :
  length (render format_e c)
  = match c with IntCol l => length l | FloatCol l => length l end.
Proof. destruct c; apply length_map. Qed.

(** Every column of a returned table has one cell per row. *)
Lemma items_lengths nodes cores peak_flops peak_bytes text T :
  analysis nodes cores peak_flops peak_bytes text = Ok T ->
  Forall (fun c => length c = length (steps T))
         (map (fun kv => render format_e (snd kv)) (items T)).
Proof.
  intros H.
  destruct (analysis_lengths _ _ _ _ _ _ H) as (He & Hs & Ht & Hf & Hb & Hsd & Hr).
  destruct (analysis_group_columns _ _ _ _ _ _ H) as (_ & _ & _ & Hi & Hw).
  pose proof (analysis_derived _ _ _ _ _ _ H) as Hd.
  unfold items. rewrite Hd.
  destruct (truthy_value peak_flops); [|destruct (truthy_value peak_bytes)];
    cbn [map app fst snd];
    repeat (apply Forall_cons; split;
            [rewrite render_length; first [congruence
              | rewrite Hi, numpy_resize_length; congruence
              | rewrite Hw, numpy_resize_length; congruence
              | unfold time_per_task, efficiency_flops, efficiency_bytes;
                rewrite length_zip_with; lia ]|]);
    apply Forall_nil_2.
Qed.

(** X17.  The CSV of a returned table is rectangular: a header of ten
    keys, or eleven with [efficiency], then one row per group, and every
    row has as many cells as the header has keys. *)
Theorem X17_csv_is_rectangular nodes cores peak_flops peak_bytes text T :
  analysis nodes cores peak_flops peak_bytes text = Ok T ->
  let rows := csv_rows format_e T in
  length rows = S (length (groups (parse_columns text)))
  /\ Forall (fun r => length r = length (hd [] rows)) rows
  /\ (length (hd [] rows) = 10 \/ length (hd [] rows) = 11)%nat.
Proof.
  intros H rows. subst rows. unfold csv_rows. cbn [hd length].
  destruct (zip_star_shape "" (length (steps T))
              (map (fun kv => render format_e (snd kv)) (items T)))
    as (Hlen & Hrows & _).
  { unfold items. discriminate. }
  { apply (items_lengths _ _ _ _ _ _ H). }
  destruct (analysis_lengths _ _ _ _ _ _ H) as (_ & Hs & _).
  split; [rewrite Hlen, Hs; reflexivity|]. split.
  - apply Forall_cons. split; [reflexivity|].
    rewrite length_map in Hrows. rewrite length_map. exact Hrows.
  - rewrite length_map. unfold items.
    rewrite (analysis_derived _ _ _ _ _ _ H), length_app, length_map.
    destruct (truthy_value peak_flops); [|destruct (truthy_value peak_bytes)];
      cbn; auto.
Qed.

(** X18.  The cell of a data row under a key is the rendering of that
    key's column at that row: the [i]-th value of the [j]-th column of the
    table is written as the [j]-th cell of the row after the header and
    [i] further rows, under the [j]-th key of the header. *)
Theorem X18_csv_cells nodes cores peak_flops peak_bytes text T :
  analysis nodes cores peak_flops peak_bytes text = Ok T ->
  forall (i j : nat) (k : string) (col : column),
    (i < length (steps T))%nat ->
    items T !! j = Some (k, col) ->
    exists header row,
      csv_rows format_e T !! 0%nat = Some header
      /\ header !! j = Some k
      /\ csv_rows format_e T !! S i = Some row
      /\ row !! j = render format_e col !! i
      /\ is_Some (row !! j).
Proof.
  intros H i j k col Hi Hj. unfold csv_rows.
  destruct (zip_star_shape "" (length (steps T))
              (map (fun kv => render format_e (snd kv)) (items T)))
    as (_ & _ & Hcell).
  { unfold items. discriminate. }
  { apply (items_lengths _ _ _ _ _ _ H). }
  destruct (Hcell i j (render format_e col) Hi) as (row & Hrow & Hc).
  { rewrite list_lookup_fmap, Hj. reflexivity. }
  exists (map fst (items T)), row. cbn [lookup list_lookup].
  split; [reflexivity|]. split; [rewrite list_lookup_fmap, Hj; reflexivity|].
  split; [exact Hrow|]. split; [exact Hc|].
  rewrite Hc. apply lookup_lt_is_Some_2.
  pose proof (items_lengths _ _ _ _ _ _ H) as Hall.
  rewrite Forall_forall in Hall.
  rewrite (Hall (render format_e col)); [exact Hi|].
  apply list_elem_of_fmap. exists (k, col). split; [reflexivity|].
  eapply list_elem_of_lookup_2, Hj.
Qed.
End CsvFacts.

Lemma X17_csv_is_rectangular_witness :
  exists T, analysis 2 3 None None interleaved_log = Ok T
            /\ length (csv_rows (fun _ => "") T) = 4%nat.
Proof.
  eexists. split; [reflexivity|].
  destruct (X17_csv_is_rectangular (fun _ => "") 2 3 None None interleaved_log _ eq_refl)
    as (-> & _). reflexivity.
Defined.

Lemma X18_csv_cells_witness :
  exists T header row,
    analysis 2 3 None None interleaved_log = Ok T
    /\ csv_rows (fun _ => "%e") T !! 0%nat = Some header
    /\ header !! 2%nat = Some "steps"
    /\ csv_rows (fun _ => "%e") T !! 2%nat = Some row
    /\ row !! 2%nat = Some "2".
Proof.
  eexists.
  destruct (X18_csv_cells (fun _ => "%e") 2 3 None None interleaved_log _ eq_refl
              1%nat 2%nat "steps" (IntCol [1; 2; 1]) ltac:(cbn; lia) eq_refl)
    as (header & row & Hh & Hk & Hr & Hc & _).
  exists header, row. split; [reflexivity|]. repeat split; assumption.
Defined.

(** ** The ordered dictionary of derived columns *)

Lemma dict_get_set_eq {A} (k : string) (v : A) d :
  dict_get k (dict_set k v d) = Some v.
Proof.
  induction d as [|[k' v'] d IH]; cbn [dict_set dict_get].
  - rewrite String.eqb_refl. reflexivity.
  - destruct (String.eqb_spec k' k) as [->|Hne]; cbn [dict_get].
    + rewrite String.eqb_refl. reflexivity.
    + apply String.eqb_neq in Hne. rewrite Hne. exact IH.
Qed.

Lemma dict_get_set_ne {A} (k k' : string) (v : A) d :
  k' <> k -> dict_get k' (dict_set k v d) = dict_get k' d.
Proof.
  intros Hk. induction d as [|[k0 v0] d IH]; cbn [dict_set dict_get].
  - destruct (String.eqb_spec k k'); [congruence | reflexivity].
  - destruct (String.eqb_spec k0 k) as [->|Hne]; cbn [dict_get].
    + destruct (String.eqb_spec k k'); [congruence | reflexivity].
    + destruct (String.eqb_spec k0 k'); [reflexivity | exact IH].
Qed.

Lemma dict_set_keys_present {A} (k : string) (v : A) d :
  In k (map fst d) -> map fst (dict_set k v d) = map fst d.
Proof.
  induction d as [|[k' v'] d IH]; cbn [dict_set map fst]; [intros []|].
  destruct (String.eqb_spec k' k) as [->|Hne]; cbn [map fst]; [reflexivity|].
  intros [?|Hin]; [congruence|]. rewrite IH by exact Hin. reflexivity.
Qed.

Lemma dict_set_keys_new {A} (k : string) (v : A) d :
  ~ In k (map fst d) -> map fst (dict_set k v d) = map fst d ++ [k].
Proof.
  induction d as [|[k' v'] d IH]; cbn [dict_set map fst app]; [reflexivity|].
  intros Hin. destruct (String.eqb_spec k' k) as [->|Hne]; cbn [map fst].
  - contradiction Hin. left. reflexivity.
  - rewrite IH by (intros H; apply Hin; right; exact H). reflexivity.
Qed.

Lemma compute_derived_keys cs t :
  NoDup (map fst cs) ->
  (forall k, In k (map fst cs) -> ~ In k (map fst (derived t))) ->
  map fst (derived (compute_derived cs t)) = map fst (derived t) ++ map fst cs.
Proof.
  unfold compute_derived. revert t.
  induction cs as [|[k f] cs IH]; intros t Hnd Hfresh; cbn [fold_left map fst].
  - rewrite app_nil_r. reflexivity.
  - apply NoDup_cons in Hnd as [Hk Hnd].
    rewrite IH; cbn [set_derived derived].
    + rewrite dict_set_keys_new, <- app_assoc; [reflexivity|].
      apply Hfresh. left. reflexivity.
    + exact Hnd.
    + intros k' Hk'. rewrite dict_set_keys_new
        by (apply Hfresh; left; reflexivity).
      intros Hin. apply in_app_or in Hin as [Hin|[<-|[]]].
      * apply (Hfresh k'); [right; exact Hk' | exact Hin].
      * apply Hk. apply list_elem_of_In. exact Hk'.
Qed.

(** X19.  Assigning a column under a key stores it: the key then reads
    back the new column and every other key reads what it read before; a
    present key keeps its place and a new key goes to the end.  So the
    formulas of [compute], under distinct keys new to the table, leave
    their columns after the table's own in the order of [compute]. *)
Theorem X19_derived_columns_in_order (k k' : string) (v : list float) d cs t :
  dict_get k (dict_set k v d) = Some v
  /\ (k' <> k -> dict_get k' (dict_set k v d) = dict_get k' d)
  /\ (In k (map fst d) -> map fst (dict_set k v d) = map fst d)
  /\ (~ In k (map fst d) -> map fst (dict_set k v d) = map fst d ++ [k])
  /\ (NoDup (map fst cs) ->
      (forall k, In k (map fst cs) -> ~ In k (map fst (derived t))) ->
      map fst (derived (compute_derived cs t)) = map fst (derived t) ++ map fst cs).
Proof.
  split; [apply dict_get_set_eq|]. split; [apply dict_get_set_ne|].
  split; [apply dict_set_keys_present|]. split; [apply dict_set_keys_new|].
  apply compute_derived_keys.
Qed.

(** ** Files that [driver] leaves alone *)

Section DriverFiles.
Variable format_e : float -> string.

Lemma analyze_all_files inputs nodes cores threshold peak_flops peak_bytes w :
  let run := analyze_all format_e inputs nodes cores threshold peak_flops peak_bytes w in
  (forall p, (forall f, In f inputs -> p <> out_path f) ->
             files (snd run) !! p = files w !! p)
  /\ exists more, calls (snd run) = calls w ++ more.
Proof.
  revert w. induction inputs as [|f inputs IH]; intros w; cbn [analyze_all].
  - split; [reflexivity | exists []; rewrite app_nil_r; reflexivity].
  - unfold mbind, io_bind.
    destruct (analyze_cases format_e f nodes cores threshold peak_flops peak_bytes w)
      as [(rows & -> & _)|(e & ->)].
    + destruct (IH (World (<[out_path f := Csv rows]> (files w))
                          (calls w ++ [open_r f; open_w (out_path f)])))
        as [IHf [more IHc]].
      cbn zeta in IHf, IHc. cbn [files calls] in IHf, IHc. split.
      * intros p Hp. rewrite IHf by (intros f' Hf'; apply Hp; right; exact Hf').
        apply lookup_insert_ne. intros Heq. apply (Hp f); [left; reflexivity|].
        congruence.
      * eexists. rewrite IHc, <- app_assoc. reflexivity.
    + cbn [snd files calls]. split; [reflexivity | eauto].
Qed.

(** X20.  [driver] leaves alone every path that is not the output path of
    one of its inputs: such a path holds after the run what it held
    before, whether the run returns or raises.  In particular a log is
    never changed, unless its own path is an output path.  And the calls
    made before the run stay on record, in their order. *)
Theorem X20_driver_leaves_other_files
  inputs summary nodes cores threshold peak_flops peak_bytes (w : world) :
  let run := driver format_e inputs summary nodes cores threshold
               peak_flops peak_bytes w in
  (forall p, (forall f, In f inputs -> p <> out_path f) ->
             files (snd run) !! p = files w !! p)
  /\ exists more, calls (snd run) = calls w ++ more.
Proof.
  unfold driver.
  destruct (is_not_None peak_flops && is_not_None peak_bytes).
  - cbn. split; [reflexivity | exists []; rewrite app_nil_r; reflexivity].
  - apply analyze_all_files.
Qed.
End DriverFiles.

(** ** The output path *)

Lemma append_nil_l (s : string) : ("" ++ s)%string = s.
Proof. reflexivity. Qed.

Lemma append_cons (a : ascii) (s1 s2 : string) :
  (String a s1 ++ s2)%string = String a (s1 ++ s2)%string.
Proof. reflexivity. Qed.

Lemma string_length_app (s1 s2 : string) :
  String.length (s1 ++ s2)%string = (String.length s1 + String.length s2)%nat.
Proof.
  induction s1 as [|a s1 IH]; rewrite ?append_nil_l, ?append_cons;
    cbn [String.length Nat.add]; [reflexivity | rewrite IH; reflexivity].
Qed.

Lemma string_app_assoc (s1 s2 s3 : string) :
  ((s1 ++ s2) ++ s3)%string = (s1 ++ s2 ++ s3)%string.
Proof.
  induction s1 as [|a s1 IH]; rewrite ?append_nil_l, ?append_cons;
    [reflexivity | rewrite IH; reflexivity].
Qed.

Lemma rfind_from_app c (s1 s2 : string) i last :
  rfind_from c (s1 ++ s2)%string i last
  = rfind_from c s2 (i + Z.of_nat (String.length s1)) (rfind_from c s1 i last).
Proof.
  revert i last. induction s1 as [|a s1 IH]; intros i last;
    rewrite ?append_nil_l, ?append_cons; cbn [rfind_from String.length].
  - rewrite Z.add_0_r. reflexivity.
  - rewrite IH. f_equal. lia.
Qed.

Lemma rfind_from_absent c (s : string) i last :
  has_char c s = false -> rfind_from c s i last = last.
Proof.
  revert i last. induction s as [|a s IH]; intros i last; cbn [has_char rfind_from];
    [reflexivity|].
  intros H. apply orb_false_iff in H as [-> H]. apply IH, H.
Qed.

Lemma rfind_from_bound c (s : string) i last :
  rfind_from c s i last = last
  \/ i <= rfind_from c s i last < i + Z.of_nat (String.length s).
Proof.
  revert i last. induction s as [|a s IH]; intros i last; cbn [rfind_from String.length];
    [left; reflexivity|].
  destruct (IH (i + 1) (if Ascii.eqb a c then i else last)) as [->|H].
  - destruct (Ascii.eqb a c); [right; lia | left; reflexivity].
  - right. lia.
Qed.

(** The last separator of a path that is a directory prefix followed by a
    name without separator. *)
Lemma rfind_sep (pre name : string) :
  directory_prefix pre -> has_char "/" name = false ->
  rfind "/" (pre ++ name)%string = Z.of_nat (String.length pre) - 1.
Proof.
  intros [->|[d ->]] Hn; unfold rfind.
  - rewrite append_nil_l. cbn [String.length].
    rewrite rfind_from_absent by exact Hn. reflexivity.
  - rewrite rfind_from_app, (rfind_from_absent _ name) by exact Hn.
    rewrite rfind_from_app. cbn [rfind_from]. rewrite Ascii.eqb_refl.
    rewrite string_length_app. cbn [String.length]. lia.
Qed.

Lemma substring_prefix (s1 s2 : string) :
  substring 0 (String.length s1) (s1 ++ s2)%string = s1.
Proof.
  induction s1 as [|a s1 IH]; rewrite ?append_nil_l, ?append_cons;
    cbn [String.length substring].
  - destruct s2; reflexivity.
  - rewrite IH. reflexivity.
Qed.

Lemma get_app_right (s1 s2 : string) (j : nat) :
  String.get (String.length s1 + j) (s1 ++ s2)%string = String.get j s2.
Proof.
  induction s1 as [|a s1 IH]; rewrite ?append_nil_l, ?append_cons;
    cbn [String.length Nat.add String.get]; [reflexivity | exact IH].
Qed.

Lemma get_app_left (s1 s2 : string) (j : nat) a :
  String.get j s1 = Some a -> String.get j (s1 ++ s2)%string = Some a.
Proof.
  revert j. induction s1 as [|b s1 IH]; intros j;
    rewrite ?append_cons; cbn [String.get]; [discriminate|].
  destruct j as [|j]; [auto | apply IH].
Qed.

Lemma has_other_get c (s : string) :
  has_other c s = true ->
  exists j a, (j < String.length s)%nat /\ String.get j s = Some a /\ Ascii.eqb a c = false.
Proof.
  induction s as [|b s IH]; cbn [has_other]; [discriminate|].
  intros H. apply orb_true_iff in H as [H|H].
  - exists 0%nat, b. cbn. apply negb_true_iff in H. repeat split; [lia | exact H].
  - destruct (IH H) as (j & a & Hj & Hg & Ha).
    exists (S j), a. cbn [String.length String.get]. repeat split; [lia | exact Hg | exact Ha].
Qed.

(** X21.  The output path is the input path with its extension replaced
    by [.csv]: for a path made of a directory prefix, a name without
    separator that is not made of dots only, a dot, and an extension
    without dot or separator, it is the prefix and the name followed by
    [.csv]; and for a path whose last component has no dot, [.csv] is
    added to the whole path. *)
Theorem X21_output_path (pre name ext : string) :
  directory_prefix pre ->
  has_char "/" name = false ->
  (has_other "." name = true ->
   has_char "." ext = false -> has_char "/" ext = false ->
   out_path (pre ++ name ++ "." ++ ext) = (pre ++ name ++ ".csv")%string)
  /\ (has_char "." name = false ->
      out_path (pre ++ name) = (pre ++ name ++ ".csv")%string).
Proof.
  intros Hpre Hname. split.
  - intros Hother Hdot Hsep. unfold out_path, splitext_root.
    assert (Hs : rfind "/" (pre ++ name ++ "." ++ ext)%string
                 = Z.of_nat (String.length pre) - 1).
    { apply rfind_sep; [exact Hpre|].
      clear -Hname Hsep. induction name as [|a name IH];
        rewrite ?append_nil_l, ?append_cons; cbn [has_char] in *.
      - exact Hsep.
      - apply orb_false_iff in Hname as [-> Hname]. apply IH, Hname. }
    assert (Hd : rfind "." (pre ++ name ++ "." ++ ext)%string
                 = Z.of_nat (String.length pre) + Z.of_nat (String.length name)).
    { unfold rfind. rewrite !rfind_from_app. cbn [rfind_from].
      rewrite Ascii.eqb_refl, rfind_from_absent by exact Hdot. lia. }
    rewrite Hs, Hd.
    replace (Z.to_nat (Z.of_nat (String.length pre) - 1 + 1)) with (String.length pre) by lia.
    replace (Z.to_nat (Z.of_nat (String.length pre) + Z.of_nat (String.length name)
                       - (Z.of_nat (String.length pre) - 1) - 1))
      with (String.length name) by lia.
    replace (Z.to_nat (Z.of_nat (String.length pre) + Z.of_nat (String.length name)))
      with (String.length (pre ++ name)%string)
      by (rewrite string_length_app; lia).
    assert (Hlt : (Z.of_nat (String.length pre) - 1
                   <? Z.of_nat (String.length pre) + Z.of_nat (String.length name)) = true)
      by (apply Z.ltb_lt; lia).
    rewrite Hlt. cbn [andb].
    assert (He : existsb
                   (fun j => match String.get j (pre ++ name ++ "." ++ ext)%string with
                             | Some a => negb (Ascii.eqb a ".")
                             | None => false
                             end)
                   (seq (String.length pre) (String.length name)) = true).
    { apply existsb_exists. destruct (has_other_get _ _ Hother) as (j & a & Hj & Hg & Ha).
      exists (String.length pre + j)%nat. split; [apply in_seq; lia|].
      rewrite get_app_right, (get_app_left _ _ _ _ Hg), Ha. reflexivity. }
    rewrite He.
    replace (pre ++ name ++ "." ++ ext)%string with ((pre ++ name) ++ "." ++ ext)%string
      by (rewrite string_app_assoc; reflexivity).
    rewrite substring_prefix, string_app_assoc. reflexivity.
  - intros Hdot. unfold out_path, splitext_root.
    rewrite (rfind_sep pre name Hpre Hname).
    assert (Hd : rfind "." (pre ++ name)%string <= Z.of_nat (String.length pre) - 1).
    { unfold rfind. rewrite rfind_from_app, (rfind_from_absent _ name) by exact Hdot.
      destruct Hpre as [->|[d ->]]; [cbn; lia|].
      rewrite rfind_from_app. cbn [rfind_from]. cbn [Ascii.eqb Bool.eqb].
      rewrite string_length_app. cbn [String.length].
      destruct (rfind_from_bound "." d 0 (-1)) as [->|H]; lia. }
    assert (Hlt : (Z.of_nat (String.length pre) - 1 <? rfind "." (pre ++ name)%string) = false)
      by (apply Z.ltb_ge; lia).
    rewrite Hlt. cbn [andb]. rewrite string_app_assoc. reflexivity.
Qed.

Lemma X21_output_path_witness :
  out_path "runs/v1.2/out.txt" = "runs/v1.2/out.csv"
  /\ out_path "runs/v1.2/out" = "runs/v1.2/out.csv".
Proof.
  destruct (X21_output_path "runs/v1.2/" "out" "txt") as [H1 H2];
    [right; exists "runs/v1.2"; reflexivity | reflexivity |].
  split; [apply H1; reflexivity | apply H2; reflexivity].
Defined.

(** ** The choice of the efficiency formula *)

(** X22.  [analyze] chooses the efficiency formula by the first peak that
    is taken as true, the compute bandwidth before the memory bandwidth:
    called with both, it uses the compute bandwidth; called with a compute
    bandwidth of zero and a memory bandwidth that is not zero, it uses the
    memory bandwidth; and with no peak taken as true it adds no
    [efficiency]. *)
Theorem X22_efficiency_precedence nodes cores peak_flops peak_bytes text T :
  analysis nodes cores peak_flops peak_bytes text = Ok T ->
  (forall pf, peak_flops = Some pf -> float_bool pf = true ->
     dict_get "efficiency" (derived T)
     = Some (zip_with (fun f e => (float_of_int f / e / float_of_int nodes) / pf)%float
                      (flops T) (elapsed T)))
  /\ (forall pb, truthy_value peak_flops = None ->
        peak_bytes = Some pb -> float_bool pb = true ->
        dict_get "efficiency" (derived T)
        = Some (zip_with (fun b e => (float_of_int b / e / float_of_int nodes) / pb)%float
                         (bytes T) (elapsed T)))
  /\ (truthy_value peak_flops = None -> truthy_value peak_bytes = None ->
      dict_get "efficiency" (derived T) = None).
Proof.
  intros H. rewrite (analysis_derived _ _ _ _ _ _ H). split; [|split].
  - intros pf -> Hpf. cbn [truthy_value]. rewrite Hpf. reflexivity.
  - intros pb -> -> Hpb. cbn [truthy_value]. rewrite Hpb. reflexivity.
  - intros -> ->. reflexivity.
Qed.

Lemma X22_efficiency_precedence_witness :
  exists T,
    analysis 2 3 (Some 4%float) (Some 8%float) example_log = Ok T
    /\ dict_get "efficiency" (derived T) = Some [12.5%float].
Proof.
  eexists. split; [reflexivity|].
  destruct (X22_efficiency_precedence 2 3 (Some 4%float) (Some 8%float)
              example_log _ eq_refl) as (H & _).
  rewrite (H 4%float eq_refl eq_refl). reflexivity.
Defined.
